(** * trading_system_fe: the resilient stream connection and the liveness prober

    A shallow embedding of the two hooks of the dashboard that carry logic:

    - [useBotStatus] (hooks/useBotStatus.js, here src/unnamed/part_000): the
      HTTP liveness prober, in [Module Prober];
    - [WebSocketConnection], which the repository holds in two near-duplicate
      versions.  The one in src/src/App.js parses tolerantly and closes a
      silent socket with [PONG_TIMEOUT_CODE = 4000]; it is called [Tolerant]
      below.  The one in src/unnamed/part_001 parses strictly and closes a
      silent socket with 1006; it is called [Strict].  What the two share
      ([sendHeartbeat], [connectWebSocket], [onopen], [onclose], the effect
      and the cleanup) is defined once.

    The component is event driven and single threaded: every callback
    (transport open/message/close/error, heartbeat interval, reconnect timeout,
    React effect, unmount) runs to completion.  A callback is a function from
    [state] to [state]; the host (browser sockets, timers) is part of [state],
    and what the host decides (the clock, whether a call throws, the code of a
    close event) is an argument of the event.

    Console output, toasts and the rendered markup are left out; where an
    expression that only feeds a toast can throw before a state update, the
    throw is kept. *)

From Stdlib Require Import ZArith String Ascii List Bool Lia.
From stdpp Require Import base list.

Set Warnings "-register-all".
Open Scope Z_scope.

(** ** JavaScript values that reach the handlers *)

(** What [JSON.parse] can return.  Numbers are kept integral: no handler
    branches on a number apart from its truthiness. *)
Inductive json : Type :=
| JNull
| JBool (b : bool)
| JNum (n : Z)
| JStr (s : string)
| JArr (items : list json)
| JObj (fields : list (string * json)).

(** The value bound to [message] in [onmessage]: a JSON value (the raw text of
    an unparseable frame is the string value [JStr raw]) or, for a binary
    frame, the [Blob] itself. *)
Inductive msgval : Type :=
| MJson (j : json)
| MBlob.

(** [event.data]: a text frame or a binary frame. *)
Inductive wsdata : Type :=
| Text (raw : string)
| Binary.

Fixpoint assoc (k : string) (fields : list (string * json)) : option json :=
  match fields with
  | [] => None
  | (k', v) :: rest => if String.eqb k k' then Some v else assoc k rest
  end.

(** [m.k] for the property names the handlers read ([type], [data], [level],
    [message]): [None] is the [TypeError] raised on [null], [Some None] is
    [undefined].  Strings, numbers, booleans and arrays have none of these
    properties; a [Blob] received from a socket has [type = ""]. *)
Definition get_prop (m : msgval) (k : string) : option (option json) :=
  match m with
  | MJson JNull => None
  | MJson (JObj fields) => Some (assoc k fields)
  | MJson _ => Some None
  | MBlob => Some (if String.eqb k "type" then Some (JStr "") else None)
  end.

(** [v === 'lit'] *)
Definition is_str (v : option json) (lit : string) : bool :=
  match v with
  | Some (JStr s) => String.eqb s lit
  | _ => false
  end.

(** [j] is an object whose [type] is the string [tag]. *)
Definition tagged (j : json) (tag : string) : Prop :=
  get_prop (MJson j) "type" = Some (Some (JStr tag)).

(** ToBoolean *)
Definition truthy (m : msgval) : bool :=
  match m with
  | MJson JNull => false
  | MJson (JBool b) => b
  | MJson (JNum n) => negb (n =? 0)
  | MJson (JStr s) => negb (String.eqb s "")
  | MJson (JArr _) | MJson (JObj _) => true
  | MBlob => true
  end.

(** ToString of a [JSON.parse] result raises [TypeError] exactly for an
    object with an own [toString] key (the key shadows
    [Object.prototype.toString] with a value that cannot be called, and
    [valueOf] gives the object back) and for an array that holds such a
    value: [Array.prototype.toString] joins the strings of its elements.
    ToPrimitive with hint number, as in [v >= 0], raises for the same
    values. *)
Fixpoint to_string_throws (j : json) : bool :=
  match j with
  | JObj fields => match assoc "toString" fields with Some _ => true | None => false end
  | JArr items => existsb to_string_throws items
  | JNull | JBool _ | JNum _ | JStr _ => false
  end.

(** Whether a template literal [`${v}`] raises, for the result [v] of a
    property read; [None], the [TypeError] of the read itself, raises too,
    and [undefined] prints. *)
Definition text_throws (v : option (option json)) : bool :=
  match v with
  | None => true
  | Some None => false
  | Some (Some j) => to_string_throws j
  end.

(** [o.k] for a value [o] that was itself read from a message. *)
Definition field (o : option (option json)) (k : string) : option (option json) :=
  match o with
  | Some (Some j) => get_prop (MJson j) k
  | Some None | None => None
  end.

(** [`주문 실행: ${message.data.side} ${message.data.amount}
    ${message.data.symbol}`], the text of the toast of an [order]. *)
Definition order_text_throws (message : msgval) : bool :=
  let data := get_prop message "data" in
  text_throws (field data "side") || text_throws (field data "amount")
  || text_throws (field data "symbol").

(** [`에러: ${message.data}`], the text of the toast of an [error]. *)
Definition error_text_throws (message : msgval) : bool :=
  text_throws (get_prop message "data").

(** ** The host: sockets and timers *)

(** [WebSocketState] *)
Inductive ready_state : Type := CONNECTING | OPEN | CLOSING | CLOSED.

(** A socket created by [connectWebSocket].  Its handlers are closures of the
    render whose [connectWebSocket] created it: [seenAttempts] is the value of
    the constant [reconnectAttempts] they close over.  [closeCode] is the code
    of the [close(code, reason)] call that started the closing handshake. *)
Record socket : Type := mkSocket {
  readyState : ready_state;
  seenAttempts : nat;
  closeCode : option Z
}.

Inductive timer_kind : Type := Timeout | Interval.

(** A timer registered with [setTimeout] or [setInterval].  The reconnect
    callback calls the [connectWebSocket] it was created in, so it carries the
    same captured [reconnectAttempts] ([timerAttempts]).  [active] is false
    once the timer was cleared or, for a timeout, has fired. *)
Record timer : Type := mkTimer {
  kind : timer_kind;
  delay : Z;
  timerAttempts : nat;
  active : bool
}.

(** What the component does to the outside world, in the order it happens. *)
Inductive effect : Type :=
| ESend (sock : nat) (timestamp : Z)      (* socket.send of a ping that returned *)
| EObserver (m : msgval)                  (* onMessage(message) *)
| ESetTimeout (t : nat) (ms : Z)
| ESetInterval (t : nat) (ms : Z)
| EClearTimeout (t : nat)
| EClearInterval (t : nat)
| EClose (sock : nat) (code : Z)          (* a close() that started the handshake *)
| ENewSocket (sock : nat)
| ECheckStatus.

(** ** Component state *)

Record state : Type := mkState {
  (* useState *)
  messages : list msgval;
  isConnected : bool;
  reconnectAttempts : nat;
  (* useRef; a ref holds the index of a socket or timer of the host *)
  socketRef : option nat;
  reconnectTimeoutRef : option nat;
  heartbeatIntervalRef : option nat;
  lastPongRef : Z;
  (* botStatus?.isOnline, owned by useBotStatus *)
  isOnline : bool;
  mounted : bool;
  (* host *)
  sockets : list socket;
  timers : list timer;
  trace : list effect
}.

Definition set_messages (x : list msgval) (st : state) : state :=
  mkState x (isConnected st) (reconnectAttempts st) (socketRef st)
    (reconnectTimeoutRef st) (heartbeatIntervalRef st) (lastPongRef st)
    (isOnline st) (mounted st) (sockets st) (timers st) (trace st).

Definition set_isConnected (x : bool) (st : state) : state :=
  mkState (messages st) x (reconnectAttempts st) (socketRef st)
    (reconnectTimeoutRef st) (heartbeatIntervalRef st) (lastPongRef st)
    (isOnline st) (mounted st) (sockets st) (timers st) (trace st).

Definition set_reconnectAttempts (x : nat) (st : state) : state :=
  mkState (messages st) (isConnected st) x (socketRef st)
    (reconnectTimeoutRef st) (heartbeatIntervalRef st) (lastPongRef st)
    (isOnline st) (mounted st) (sockets st) (timers st) (trace st).

Definition set_socketRef (x : option nat) (st : state) : state :=
  mkState (messages st) (isConnected st) (reconnectAttempts st) x
    (reconnectTimeoutRef st) (heartbeatIntervalRef st) (lastPongRef st)
    (isOnline st) (mounted st) (sockets st) (timers st) (trace st).

Definition set_reconnectTimeoutRef (x : option nat) (st : state) : state :=
  mkState (messages st) (isConnected st) (reconnectAttempts st) (socketRef st)
    x (heartbeatIntervalRef st) (lastPongRef st)
    (isOnline st) (mounted st) (sockets st) (timers st) (trace st).

Definition set_heartbeatIntervalRef (x : option nat) (st : state) : state :=
  mkState (messages st) (isConnected st) (reconnectAttempts st) (socketRef st)
    (reconnectTimeoutRef st) x (lastPongRef st)
    (isOnline st) (mounted st) (sockets st) (timers st) (trace st).

Definition set_lastPongRef (x : Z) (st : state) : state :=
  mkState (messages st) (isConnected st) (reconnectAttempts st) (socketRef st)
    (reconnectTimeoutRef st) (heartbeatIntervalRef st) x
    (isOnline st) (mounted st) (sockets st) (timers st) (trace st).

Definition set_isOnline (x : bool) (st : state) : state :=
  mkState (messages st) (isConnected st) (reconnectAttempts st) (socketRef st)
    (reconnectTimeoutRef st) (heartbeatIntervalRef st) (lastPongRef st)
    x (mounted st) (sockets st) (timers st) (trace st).

Definition set_mounted (x : bool) (st : state) : state :=
  mkState (messages st) (isConnected st) (reconnectAttempts st) (socketRef st)
    (reconnectTimeoutRef st) (heartbeatIntervalRef st) (lastPongRef st)
    (isOnline st) x (sockets st) (timers st) (trace st).

Definition set_sockets (x : list socket) (st : state) : state :=
  mkState (messages st) (isConnected st) (reconnectAttempts st) (socketRef st)
    (reconnectTimeoutRef st) (heartbeatIntervalRef st) (lastPongRef st)
    (isOnline st) (mounted st) x (timers st) (trace st).

Definition set_timers (x : list timer) (st : state) : state :=
  mkState (messages st) (isConnected st) (reconnectAttempts st) (socketRef st)
    (reconnectTimeoutRef st) (heartbeatIntervalRef st) (lastPongRef st)
    (isOnline st) (mounted st) (sockets st) x (trace st).

Definition emit (e : effect) (st : state) : state :=
  mkState (messages st) (isConnected st) (reconnectAttempts st) (socketRef st)
    (reconnectTimeoutRef st) (heartbeatIntervalRef st) (lastPongRef st)
    (isOnline st) (mounted st) (sockets st) (timers st) (trace st ++ [e]).

(** The state of a component mounted at time [now]
    ([lastPongRef = useRef(Date.now())]). *)
Definition initial (now : Z) : state :=
  mkState [] false 0%nat None None None now false true [] [] [].

(** *** Timers *)

Definition deactivate (t : timer) : timer :=
  mkTimer (kind t) (delay t) (timerAttempts t) false.

(** [setTimeout] / [setInterval]: the new timer's id is its index. *)
Definition newTimer (k : timer_kind) (ms : Z) (r : nat) (st : state) : nat * state :=
  let id := length (timers st) in
  (id, set_timers (timers st ++ [mkTimer k ms r true]) st).

(** [clearTimeout] / [clearInterval]: idempotent, a no-op on an unknown id. *)
Definition clearTimer (id : nat) (st : state) : state :=
  set_timers (alter deactivate id (timers st)) st.

Definition timer_is (k : timer_kind) (t : timer) : bool :=
  match kind t, k with
  | Timeout, Timeout | Interval, Interval => active t
  | _, _ => false
  end.

(** *** The WebSocket interface *)

(** The browser's [WebSocket.close(code, reason)]: a [code] other than 1000
    and 3000..4999 raises [InvalidAccessError] before anything happens (so
    1006, which only the browser itself may report, cannot be passed). *)
Definition valid_close_code (code : Z) : bool :=
  (code =? 1000) || ((3000 <=? code) && (code <=? 4999)).

Definition live (s : socket) : bool :=
  match readyState s with
  | OPEN | CONNECTING => true
  | CLOSING | CLOSED => false
  end.

(** The effect of an accepted [close(code)]: nothing on a socket that is
    already [CLOSING] or [CLOSED], otherwise the closing handshake starts. *)
Definition do_close (id : nat) (code : Z) (st : state) : state :=
  match sockets st !! id with
  | Some s =>
      if live s
      then emit (EClose id code)
             (set_sockets (<[id := mkSocket CLOSING (seenAttempts s) (Some code)]> (sockets st)) st)
      else st
  | None => st
  end.

(** [socket.close(code, reason)]; [None] is the exception. *)
Definition ws_close (id : nat) (code : Z) (st : state) : option state :=
  if valid_close_code code then Some (do_close id code st) else None.

Definition socket_state (id : nat) (st : state) : option ready_state :=
  readyState <$> sockets st !! id.

Definition set_readyState (id : nat) (rs : ready_state) (st : state) : state :=
  set_sockets (alter (fun s => mkSocket rs (seenAttempts s) (closeCode s)) id (sockets st)) st.

(** The state of the handle [socketRef] points at, if any. *)
Definition current_state (st : state) : option ready_state :=
  match socketRef st with
  | Some id => socket_state id st
  | None => None
  end.

(** ** The callbacks of [WebSocketConnection] *)

Inductive variant : Type := Tolerant | Strict.

(** [checkConnection] closes with this code; [Tolerant] names it
    [PONG_TIMEOUT_CODE]. *)
Definition PONG_TIMEOUT_CODE (v : variant) : Z :=
  match v with
  | Tolerant => 4000
  | Strict => 1006
  end.

(** [sendHeartbeat]: [send_throws] says whether [socket.send] raises; the
    [try]/[catch] around it only logs. *)
Definition sendHeartbeat (now : Z) (send_throws : bool) (st : state) : state :=
  match socketRef st with
  | Some id =>
      match socket_state id st with
      | Some OPEN => if send_throws then st else emit (ESend id now) st
      | _ => st
      end
  | None => st
  end.

(** [checkConnection]; [None] is the exception [close] raises on a code it
    does not accept. *)
Definition checkConnection (v : variant) (now : Z) (st : state) : option state :=
  let timeSinceLastPong := now - lastPongRef st in
  if 30000 <? timeSinceLastPong then
    match socketRef st with
    | Some id => ws_close id (PONG_TIMEOUT_CODE v) st
    | None => Some st
    end
  else Some st.

(** The body of the [setInterval] callback installed by [onopen]:
    [sendHeartbeat(); checkConnection();].  An exception leaving
    [checkConnection] ends the callback; what [sendHeartbeat] did stays. *)
Definition heartbeatTick (v : variant) (now : Z) (send_throws : bool) (st : state) : state :=
  let st1 := sendHeartbeat now send_throws st in
  match checkConnection v now st1 with
  | Some st2 => st2
  | None => st1
  end.

(** [Math.min(1000 * Math.pow(2, reconnectAttempts), 30000)] *)
Definition backoff (r : nat) : Z := Z.min (1000 * 2 ^ Z.of_nat r) 30000.

(** [if (reconnectTimeoutRef.current) { clearTimeout(..); .. = null }] *)
Definition cancelReconnect (st : state) : state :=
  match reconnectTimeoutRef st with
  | Some t => set_reconnectTimeoutRef None (emit (EClearTimeout t) (clearTimer t st))
  | None => st
  end.

(** [if (heartbeatIntervalRef.current) { clearInterval(..); .. = null }] *)
Definition cancelHeartbeat (st : state) : state :=
  match heartbeatIntervalRef st with
  | Some t => set_heartbeatIntervalRef None (emit (EClearInterval t) (clearTimer t st))
  | None => st
  end.

(** [if (socketRef.current && (readyState === OPEN || readyState === CONNECTING))
      socketRef.current.close(code, ..)], for the two codes the component
    passes here (4000 and 1000), both of which [close] accepts. *)
Definition closeCurrent (code : Z) (st : state) : state :=
  match socketRef st with
  | Some id =>
      match sockets st !! id with
      | Some s => if live s then do_close id code st else st
      | None => st
      end
  | None => st
  end.

(** [reconnectTimeoutRef.current = setTimeout(() => { setReconnectAttempts(prev
    => prev + 1); connectWebSocket(); }, delay)] inside a [connectWebSocket]
    whose [reconnectAttempts] is [r]. *)
Definition scheduleReconnect (r : nat) (st : state) : state :=
  let ms := backoff r in
  let '(t, st1) := newTimer Timeout ms r st in
  set_reconnectTimeoutRef (Some t) (emit (ESetTimeout t ms) st1).

(** [connectWebSocket] of a render whose [reconnectAttempts] is [r].

    [reconnectAttempts] is a constant of one render of the component, and
    [connectWebSocket] is re-created by [useCallback] when it changes.  The
    handlers installed on the new socket and the reconnect callback are
    closures of this call: they read this [r], and the callback's
    [connectWebSocket()] is this very function, whatever the state holds by
    then.  So [r] is stored in the socket and in the timer.

    [ctor_throws] says whether [new WebSocket(wsUrl)] raises; [wsUrl] is a
    constant of the deployment.  [getWebSocketUrl()] of App.js, which runs
    before the [try], is taken to return: the configured base is unset or an
    absolute URL, the only ones [new URL] accepts. *)
Definition connectWebSocket (r : nat) (ctor_throws : bool) (st : state) : state :=
  let st1 := cancelReconnect st in
  let st2 := cancelHeartbeat st1 in
  let st3 := closeCurrent 4000 st2 in
  if ctor_throws then scheduleReconnect r st3
  else
    let id := length (sockets st3) in
    set_socketRef (Some id)
      (emit (ENewSocket id)
         (set_sockets (sockets st3 ++ [mkSocket CONNECTING r None]) st3)).

(** [newSocket.onopen] *)
Definition onopen (r : nat) (now : Z) (st : state) : state :=
  let st1 := set_isConnected true st in
  let st2 := set_reconnectAttempts 0 st1 in
  let st3 := set_lastPongRef now st2 in
  let st4 := emit ECheckStatus st3 in
  let '(t, st5) := newTimer Interval 10000 r st4 in
  set_heartbeatIntervalRef (Some t) (emit (ESetInterval t 10000) st5).

(** [newSocket.onclose] of a socket whose handlers saw [reconnectAttempts = r]. *)
Definition onclose (r : nat) (code : Z) (wasClean : bool) (st : state) : state :=
  let st1 := set_isConnected false st in
  let st2 := cancelHeartbeat st1 in
  if negb (code =? 1000) && negb (code =? 1005) && negb (code =? 4000)
  then scheduleReconnect r st2
  else st2.

(** The reconnect timeout's callback. *)
Definition reconnectCallback (r : nat) (ctor_throws : bool) (st : state) : state :=
  connectWebSocket r ctor_throws (set_reconnectAttempts (S (reconnectAttempts st)) st).

(** [newSocket.onerror]: [Tolerant] only reports; [Strict] calls
    [close(1006, ..)] on a live socket. *)
Definition onerror (v : variant) (id : nat) (st : state) : state :=
  match v with
  | Tolerant => st
  | Strict =>
      match sockets st !! id with
      | Some s =>
          if live s
          then match ws_close id 1006 st with Some st1 => st1 | None => st end
          else st
      | None => st
      end
  end.

(** The effect with dependencies [botStatus?.isOnline] and
    [connectWebSocket]: it calls the [connectWebSocket] of the current render.
    The event loop below lets it run at any moment while the component is
    mounted, which covers every moment React can choose. *)
Definition onlineEffect (ctor_throws : bool) (st : state) : state :=
  let closed_or_null :=
    match socketRef st with
    | None => true
    | Some id => match socket_state id st with Some CLOSED => true | _ => false end
    end in
  if isOnline st && closed_or_null
  then connectWebSocket (reconnectAttempts st) ctor_throws st
  else st.

(** The unmount cleanup. *)
Definition cleanup (st : state) : state :=
  let st1 := cancelHeartbeat st in
  let st2 := cancelReconnect st1 in
  match socketRef st2 with
  | Some _ => set_socketRef None (closeCurrent 1000 st2)
  | None => st2
  end.

(** [setMessages(prev => [message, ...prev].slice(0, 100))] *)
Definition pushMessage (m : msgval) (prev : list msgval) : list msgval :=
  take 100 (m :: prev).

Section Handlers.

(** The host's [JSON.parse] ([None]: it raises [SyntaxError]) and whether
    the parent passed an [onMessage] callback. *)
Variable JSON_parse : string -> option json.
Variable onMessage : bool.

Definition record (m : msgval) (st : state) : state :=
  set_messages (pushMessage m (messages st)) st.

(** [if (onMessage) { onMessage(message); }] *)
Definition notify (m : msgval) (st : state) : state :=
  if onMessage then emit (EObserver m) st else st.

(** [Tolerant]'s [onmessage].  An exception anywhere is swallowed by the
    outer [try]/[catch].  The [order] and [error] branches build the text of
    their toast before [setMessages], so an exception there leaves the state
    as it was; the toasts that follow the state updates of the [log] branch
    are left out, an exception there changes nothing any more. *)
Definition onmessage_tolerant (d : wsdata) (now : Z) (st : state) : state :=
  let message :=
    match d with
    | Text raw =>
        match JSON_parse raw with
        | Some j => MJson j
        | None => MJson (JStr raw)
        end
    | Binary => MBlob
    end in
  (* message && message.type === 'pong' || message.type === 'connection' *)
  let left :=
    if truthy message
    then match get_prop message "type" with Some ty => is_str ty "pong" | None => false end
    else false in
  let cond :=
    if left then Some true
    else match get_prop message "type" with
         | Some ty => Some (is_str ty "connection")
         | None => None
         end in
  match cond, get_prop message "type" with
  | Some true, _ => set_lastPongRef now st
  | Some false, Some ty =>
      if is_str ty "log" then notify message (record message st)
      else if is_str ty "order" then
        (* toast.info(`.. ${message.data.side} ..`); setMessages(..) *)
        if order_text_throws message then st else record message st
      else if is_str ty "error" then
        (* toast.error(`.. ${message.data}`); setMessages(..) *)
        if error_text_throws message then st else record message st
      else st
  | _, _ => st
  end.

(** [Strict]'s [onmessage].  [JSON.parse] of a [Blob] parses its string
    form. *)
Definition onmessage_strict (d : wsdata) (now : Z) (st : state) : state :=
  let text := match d with Text raw => raw | Binary => "[object Blob]"%string end in
  match JSON_parse text with
  | None => st
  | Some j =>
      let message := MJson j in
      match get_prop message "type" with
      | None => st
      | Some ty =>
          if is_str ty "pong" || is_str ty "connection"
          then set_lastPongRef now st
          else notify message (record message st)
      end
  end.

Definition onmessage (v : variant) : wsdata -> Z -> state -> state :=
  match v with
  | Tolerant => onmessage_tolerant
  | Strict => onmessage_strict
  end.

(** ** The event loop *)

Inductive event : Type :=
| EvStatus (online : bool)                      (* useBotStatus publishes *)
| EvEffect (ctor_throws : bool)                 (* React runs the connect effect *)
| EvOpen (id : nat) (now : Z)
| EvMessage (id : nat) (d : wsdata) (now : Z)
| EvClose (id : nat) (code : Z) (wasClean : bool)
| EvError (id : nat)
| EvTick (t : nat) (now : Z) (send_throws : bool)   (* heartbeat interval fires *)
| EvTimeout (t : nat) (ctor_throws : bool)          (* reconnect timeout fires *)
| EvUnmount.

(** One task of the event loop; [None] when the host cannot deliver the
    event in this state (an open event on a socket that is not connecting,
    a message on a socket that is not open, a cleared timer firing, ...). *)
Definition step (v : variant) (ev : event) (st : state) : option state :=
  match ev with
  | EvStatus online =>
      if mounted st then Some (set_isOnline online st) else None
  | EvEffect ctor_throws =>
      if mounted st then Some (onlineEffect ctor_throws st) else None
  | EvOpen id now =>
      match sockets st !! id with
      | Some s =>
          match readyState s with
          | CONNECTING => Some (onopen (seenAttempts s) now (set_readyState id OPEN st))
          | _ => None
          end
      | None => None
      end
  | EvMessage id d now =>
      match socket_state id st with
      | Some OPEN => Some (onmessage v d now st)
      | _ => None
      end
  | EvClose id code wasClean =>
      match sockets st !! id with
      | Some s =>
          match readyState s with
          | CLOSED => None
          | _ => Some (onclose (seenAttempts s) code wasClean (set_readyState id CLOSED st))
          end
      | None => None
      end
  | EvError id =>
      match sockets st !! id with
      | Some _ => Some (onerror v id st)
      | None => None
      end
  | EvTick t now send_throws =>
      match timers st !! t with
      | Some tm => if timer_is Interval tm then Some (heartbeatTick v now send_throws st) else None
      | None => None
      end
  | EvTimeout t ctor_throws =>
      match timers st !! t with
      | Some tm =>
          if timer_is Timeout tm
          then Some (reconnectCallback (timerAttempts tm) ctor_throws (clearTimer t st))
          else None
      | None => None
      end
  | EvUnmount =>
      if mounted st then Some (cleanup (set_mounted false st)) else None
  end.

Fixpoint run (v : variant) (evs : list event) (st : state) : option state :=
  match evs with
  | [] => Some st
  | ev :: rest =>
      match step v ev st with
      | Some st1 => run v rest st1
      | None => None
      end
  end.

End Handlers.

(** ** Reading a trace *)

(** The close codes the component never retries after. *)
Definition non_retry (code : Z) : bool :=
  (code =? 1000) || (code =? 1005) || (code =? 4000).

(** The delays of the reconnect timeouts scheduled, oldest first. *)
Definition scheduled (tr : list effect) : list Z :=
  omap (fun e => match e with ESetTimeout _ ms => Some ms | _ => None end) tr.

(** The handshakes started by [close], oldest first. *)
Definition closes (tr : list effect) : list (nat * Z) :=
  omap (fun e => match e with EClose id code => Some (id, code) | _ => None end) tr.

(** The messages handed to the observer, oldest first. *)
Definition forwarded (tr : list effect) : list msgval :=
  omap (fun e => match e with EObserver m => Some m | _ => None end) tr.

(** Between [st] and [st'] the reconnect timer was not touched: the ref, the
    number of timers, the timers still pending and the timeouts scheduled so
    far are as before. *)
Definition nothing_scheduled (st st' : state) : Prop :=
  reconnectTimeoutRef st' = reconnectTimeoutRef st /\
  length (timers st') = length (timers st) /\
  (forall t tm, timers st' !! t = Some tm -> active tm = true -> timers st !! t = Some tm) /\
  scheduled (trace st') = scheduled (trace st).

(** A close event carrying one of the codes of [non_retry]. *)
Definition non_retry_close (ev : event) : bool :=
  match ev with
  | EvClose _ code _ => non_retry code
  | _ => false
  end.

(** An event after which nothing new can be scheduled: any event but a close
    with a retry code and a constructor that throws. *)
Definition quiet_event (ev : event) : bool :=
  match ev with
  | EvClose _ code _ => non_retry code
  | EvEffect ctor_throws | EvTimeout _ ctor_throws => negb ctor_throws
  | _ => true
  end.

(** ** Phases of the connection *)

Definition all_closed (socks : list socket) : Prop :=
  forall i s, socks !! i = Some s -> readyState s = CLOSED.

(** [h] is the one socket that is not [CLOSED]. *)
Definition only_handle (h : nat) (socks : list socket) : Prop :=
  (exists s, socks !! h = Some s /\ readyState s <> CLOSED) /\
  forall i s, socks !! i = Some s -> i <> h -> readyState s = CLOSED.

Definition no_active (k : timer_kind) (tms : list timer) : Prop :=
  forall t tm, tms !! t = Some tm -> timer_is k tm = false.

(** Every pending timer of kind [k] is the one the ref holds. *)
Definition held_by (k : timer_kind) (ref : option nat) (tms : list timer) : Prop :=
  forall t tm, tms !! t = Some tm -> timer_is k tm = true -> ref = Some t.

(** No handle: every socket is closed, no heartbeat runs, and a pending
    reconnect timeout is the one [reconnectTimeoutRef] holds. *)
Definition idle (st : state) : Prop :=
  all_closed (sockets st) /\
  no_active Interval (timers st) /\
  held_by Timeout (reconnectTimeoutRef st) (timers st).

(** One handle [h]: no reconnect timeout is pending, a running heartbeat is
    the one [heartbeatIntervalRef] holds and runs only once [h] has opened,
    and [socketRef] points at [h] while the component is mounted or [h] is
    live. *)
Definition alive (h : nat) (st : state) : Prop :=
  only_handle h (sockets st) /\
  no_active Timeout (timers st) /\
  held_by Interval (heartbeatIntervalRef st) (timers st) /\
  (socket_state h st = Some CONNECTING -> no_active Interval (timers st)) /\
  (mounted st = true -> socketRef st = Some h) /\
  (forall s, sockets st !! h = Some s -> live s = true -> socketRef st = Some h).

Definition consistent (st : state) : Prop := idle st \/ exists h, alive h st.

(** [clearTimeout]/[clearInterval] of what a ref holds. *)
Definition clear_ref (ref : option nat) (tms : list timer) : list timer :=
  match ref with
  | Some t => alter deactivate t tms
  | None => tms
  end.

(** What [close(code)] on the socket a ref holds does to the sockets. *)
Definition close_ref (code : Z) (ref : option nat) (socks : list socket) : list socket :=
  match ref with
  | Some id =>
      match socks !! id with
      | Some s =>
          if live s then <[id := mkSocket CLOSING (seenAttempts s) (Some code)]> socks
          else socks
      | None => socks
      end
  | None => socks
  end.

(** The effects of the three steps [connectWebSocket] takes before it
    constructs a socket, in order. *)
Definition teardown_effects (st : state) : list effect :=
  match reconnectTimeoutRef st with Some t => [EClearTimeout t] | None => [] end ++
  match heartbeatIntervalRef st with Some t => [EClearInterval t] | None => [] end ++
  match socketRef st with
  | Some id =>
      match sockets st !! id with
      | Some s => if live s then [EClose id 4000] else []
      | None => []
      end
  | None => []
  end.

(** ** [useBotStatus]: the liveness prober *)

Module Prober.

(** A statement either completes or throws an [Error] with a message. *)
Inductive completion (A : Type) : Type :=
| Normal (a : A)
| Abrupt (message : string).
Arguments Normal {A} a.
Arguments Abrupt {A} message.

(** What [await response.json()] yields. *)
Inductive body : Type :=
| BodyJson (j : json)
| BodyError (message : string).

(** What [await fetch(url)] yields: a rejection (network failure) or a
    response with its status and body. *)
Inductive fetch_result : Type :=
| Rejected (message : string)
| Response (status : Z) (b : body).

(** [response.ok]: the status is in 200..299. *)
Definition ok (status : Z) : bool := (200 <=? status) && (status <=? 299).

(** The object [checkStatus] builds: [{...status, isOnline: response.ok,
    lastUpdated}] on success (the spread is kept symbolic), or
    [{status: 'offline', message, isOnline: false, lastUpdated}]. *)
Inductive bot_status : Type :=
| Merged (parsed : json) (isOnline : bool) (lastUpdated : string)
| ErrorStatus (message : string) (lastUpdated : string).

Definition status_of (b : bot_status) : option json :=
  match b with
  | Merged (JObj fields) _ _ => assoc "status" fields
  | Merged _ _ _ => None
  | ErrorStatus _ _ => Some (JStr "offline")
  end.

Definition isOnline_of (b : bot_status) : bool :=
  match b with
  | Merged _ o _ => o
  | ErrorStatus _ _ => false
  end.

Definition message_of (b : bot_status) : option json :=
  match b with
  | Merged (JObj fields) _ _ => assoc "message" fields
  | Merged _ _ _ => None
  | ErrorStatus m _ => Some (JStr m)
  end.

Record hook : Type := mkHook {
  botStatus : option bot_status;
  isLoading : bool;
  lastChecked : option string
}.

(** [haystack.includes(needle)] *)
Fixpoint includes (needle haystack : string) : bool :=
  String.prefix needle haystack ||
  match haystack with
  | EmptyString => false
  | String _ rest => includes needle rest
  end.

Definition digit (n : nat) : string := String (ascii_of_nat (48 + n)) EmptyString.

(** Decimal digits of a natural number, as a template literal prints it. *)
Fixpoint decimal_fuel (fuel n : nat) (acc : string) : string :=
  match fuel with
  | O => acc
  | S fuel' =>
      let acc' := String.append (digit (n mod 10)) acc in
      match (n / 10)%nat with
      | O => acc'
      | q => decimal_fuel fuel' q acc'
      end
  end.

Definition decimal (status : Z) : string :=
  let n := Z.to_nat status in decimal_fuel (S n) n EmptyString.

(** [`HTTP error! status: ${response.status}`], the message of the error
    thrown for a response that is not [ok]. *)
Definition http_error (status : Z) : string :=
  String.append "HTTP error! status: " (decimal status).

Definition NOT_FOUND : string := "API 엔드포인트를 찾을 수 없습니다".
Definition CONNECTION_ERROR : string := "연결 오류".

(** The [try] block. *)
Definition checkStatus_try (r : fetch_result) (now1 now2 : string) (h : hook)
  : completion bot_status * hook :=
  match r with
  | Rejected msg => (Abrupt msg, h)
  | Response status b =>
      if negb (ok status)
      then (Abrupt (http_error status), h)
      else
        match b with
        | BodyError msg => (Abrupt msg, h)
        | BodyJson j =>
            let newStatus := Merged j (ok status) now1 in
            (Normal newStatus, mkHook (Some newStatus) (isLoading h) (Some now2))
        end
  end.

(** The [catch] block. *)
Definition checkStatus_catch (message now1 : string) (h : hook)
  : completion bot_status * hook :=
  let errorStatus :=
    ErrorStatus (if includes "404" message then NOT_FOUND else CONNECTION_ERROR) now1 in
  (Normal errorStatus, mkHook (Some errorStatus) (isLoading h) (lastChecked h)).

(** [checkStatus]: how the promise settles and the hook state afterwards.
    [now1], [now2] are the successive readings of the clock. *)
Definition checkStatus (r : fetch_result) (now1 now2 : string) (h : hook)
  : completion bot_status * hook :=
  let h1 := mkHook (botStatus h) true (lastChecked h) in
  let '(c, h2) :=
    match checkStatus_try r now1 now2 h1 with
    | (Abrupt message, h') => checkStatus_catch message now1 h'
    | settled => settled
    end in
  (c, mkHook (botStatus h2) false (lastChecked h2)).

(** The failures the prober recovers from: the request did not complete,
    or the response is not a success. *)
Definition failure (r : fetch_result) : option string :=
  match r with
  | Rejected msg => Some msg
  | Response status _ =>
      if ok status then None
      else Some (http_error status)
  end.

End Prober.

(** ** The dashboards that observe the connection *)

(** [message.data] as the observers read it: [None] is [undefined].  The
    read itself throws on [null] only, and [null] never reaches an observer
    (both [onmessage] versions read [message.type] first). *)
Definition data_of (m : msgval) : option json :=
  match get_prop m "data" with
  | Some d => d
  | None => None
  end.

(** [TradingDashboard] of src/src/components/TradingDashboard.js. *)
Module Dashboard.

Record view : Type := mkView {
  marketData : list (option json);
  positions : option json;
  performance : option json
}.

(** The three [useState] initial values. *)
Definition initial : view :=
  mkView [] (Some (JArr []))
    (Some (JObj [("totalProfit", JNum 0); ("winRate", JNum 0); ("dailyReturn", JNum 0)]%string)).

(** [[...prev, message.data].slice(-100)] *)
Definition pushData (d : option json) (prev : list (option json)) : list (option json) :=
  let l := prev ++ [d] in drop (length l - 100) l.

(** [handleWebSocketMessage]: a [switch] on [message.type]. *)
Definition handleWebSocketMessage (m : msgval) (v : view) : view :=
  match get_prop m "type" with
  | None => v
  | Some ty =>
      if is_str ty "market_data"
      then mkView (pushData (data_of m) (marketData v)) (positions v) (performance v)
      else if is_str ty "position_update"
      then mkView (marketData v) (data_of m) (performance v)
      else if is_str ty "performance_update"
      then mkView (marketData v) (positions v) (data_of m)
      else v
  end.

End Dashboard.

(** [message.type === 'position_update'] *)
Definition is_position_update (m : msgval) : bool :=
  match get_prop m "type" with
  | Some ty => is_str ty "position_update"
  | None => false
  end.

(** [TradingDashboard] of src/unnamed/part_002: only the positions are state. *)
Module Positions.

Definition initial : option json := Some (JArr []).

(** [handleWebSocketMessage]: [market_data] and every other type but
    [position_update] fall through. *)
Definition handleWebSocketMessage (m : msgval) (positions : option json) : option json :=
  match get_prop m "type" with
  | None => positions
  | Some ty =>
      if is_str ty "market_data" then positions
      else if is_str ty "position_update" then data_of m
      else positions
  end.

(** What React takes as a child of an element: strings and numbers are
    printed, booleans and [null] print nothing, an array is a list of
    children, and a plain object is refused with an exception. *)
Fixpoint valid_child (j : json) : bool :=
  match j with
  | JObj _ => false
  | JArr items => forallb valid_child items
  | JNull | JBool _ | JNum _ | JStr _ => true
  end.

(** [{v}] for the result [v] of a property read; [undefined] prints
    nothing. *)
Definition child_renders (v : option (option json)) : bool :=
  match v with
  | None => false
  | Some None => true
  | Some (Some j) => valid_child j
  end.

(** One row of the table, the body of [positions.map((pos, idx) => ..)]:
    [{pos.symbol}], [parseFloat(pos.amount)], [pos.pnl >= 0] and
    [parseFloat(pos.pnl)].  On a [null] row the first read raises. *)
Definition row_renders (pos : json) : bool :=
  child_renders (get_prop (MJson pos) "symbol")
  && negb (text_throws (get_prop (MJson pos) "amount"))
  && negb (text_throws (get_prop (MJson pos) "pnl")).

Section Render.

(** The host's [v > 0] for a string, or an array of strings and numbers:
    its ToNumber of a string is not modelled. *)
Variable positive : json -> bool.

(** Whether the render of the component returns when [positions] holds the
    given value.  It reads [positions.length] twice, as a child of the
    header and in [positions.length > 0 ? positions.map(..) : ..]: the read
    raises on [undefined] and [null]; an array has its rows rendered; a
    string that is not empty, or an object whose [length] is positive, has
    no [map] to call. *)
Definition renders (positions : option json) : bool :=
  match positions with
  | None | Some JNull => false
  | Some (JArr rows) => forallb row_renders rows
  | Some (JStr s) => String.eqb s ""
  | Some (JNum _) | Some (JBool _) => true
  | Some (JObj fields) =>
      match assoc "length" fields with
      | None | Some JNull => true
      | Some (JBool b) => negb b
      | Some (JNum n) => n <=? 0
      | Some (JStr s) => negb (positive (JStr s))
      | Some (JArr items) => forallb valid_child items && negb (positive (JArr items))
      | Some (JObj _) => false
      end
  end.

(** The mounted component with its [positions], or what is left once a
    render has raised: without an error boundary React removes the tree. *)
Inductive dashboard : Type :=
| Live (positions : option json)
| Unmounted.

(** The observer is called with a message: [handleWebSocketMessage] runs,
    and after [setPositions] the component renders again, before the next
    message is handled. *)
Definition deliver (m : msgval) (d : dashboard) : dashboard :=
  match d with
  | Unmounted => Unmounted
  | Live positions =>
      let positions' := handleWebSocketMessage m positions in
      if is_position_update m
      then if renders positions' then Live positions' else Unmounted
      else Live positions'
  end.

End Render.

End Positions.

(** ** The stream endpoint of [Strict] *)

(** [s.replace(pattern, replacement)] with a string pattern: the first
    occurrence only.  ([replacement] holds no [$], so it is taken literally.) *)
Fixpoint replace_first (pattern replacement s : string) : string :=
  if String.prefix pattern s
  then String.append replacement
         (String.substring (String.length pattern) (String.length s - String.length pattern) s)
  else match s with
       | EmptyString => EmptyString
       | String c rest => String c (replace_first pattern replacement rest)
       end.

(** [wsUrl] of [Strict]'s [connectWebSocket]; the argument is
    [process.env.REACT_APP_BACKEND_URL] ([None]: not set). *)
Definition wsUrl (REACT_APP_BACKEND_URL : option string) : string :=
  match REACT_APP_BACKEND_URL with
  | Some url =>
      if String.eqb url "" then "ws://localhost:8000/ws/logs"
      else String.append (replace_first "http" "ws" url) "/ws/logs"
  | None => "ws://localhost:8000/ws/logs"
  end.

(** ** What a run leaves behind *)

(** [m] is tagged [pong] or [connection]. *)
Definition heartbeat_reply (m : msgval) : bool :=
  match get_prop m "type" with
  | Some ty => is_str ty "pong" || is_str ty "connection"
  | None => false
  end.

Definition is_log (m : msgval) : bool :=
  match get_prop m "type" with
  | Some ty => is_str ty "log"
  | None => false
  end.

(** What [Tolerant] puts in the history: a [log], and an [order] or an
    [error] whose toast text can be built.  For an [order] that needs a
    [data] that is neither missing nor [null]. *)
Definition displayable (m : msgval) : bool :=
  match get_prop m "type" with
  | Some ty =>
      is_str ty "log"
      || (is_str ty "order" && negb (order_text_throws m))
      || (is_str ty "error" && negb (error_text_throws m))
  | None => false
  end.

(** The value [Tolerant]'s [onmessage] binds to [message]. *)
Definition received (JSON_parse : string -> option json) (d : wsdata) : msgval :=
  match d with
  | Text raw =>
      match JSON_parse raw with
      | Some j => MJson j
      | None => MJson (JStr raw)
      end
  | Binary => MBlob
  end.

(** The message [onmessage] hands to [setMessages] for a frame, if the
    handler gets that far: in [Tolerant] the received value when it is
    displayable and no heartbeat reply, in [Strict] every parsed value whose
    [type] can be read and that is no heartbeat reply. *)
Definition history_entry (JSON_parse : string -> option json) (v : variant) (d : wsdata)
    : option msgval :=
  match v with
  | Tolerant =>
      let m := received JSON_parse d in
      if heartbeat_reply m then None else if displayable m then Some m else None
  | Strict =>
      match JSON_parse (match d with Text raw => raw | Binary => "[object Blob]"%string end) with
      | Some j =>
          match get_prop (MJson j) "type" with
          | Some _ => if heartbeat_reply (MJson j) then None else Some (MJson j)
          | None => None
          end
      | None => None
      end
  end.

(** The history entry an event brings: only a message event brings one. *)
Definition entry_of (JSON_parse : string -> option json) (v : variant) (ev : event)
    : option msgval :=
  match ev with
  | EvMessage _ d _ => history_entry JSON_parse v d
  | _ => None
  end.

(** The ref that holds the timers of a kind. *)
Definition ref_of (k : timer_kind) (st : state) : option nat :=
  match k with
  | Timeout => reconnectTimeoutRef st
  | Interval => heartbeatIntervalRef st
  end.



(** The delay a timer was registered with: a reconnect timeout waits between
    one and thirty seconds, the heartbeat ticks every ten. *)
Definition timer_ok (tm : timer) : Prop :=
  match kind tm with
  | Timeout => 1000 <= delay tm <= 30000
  | Interval => delay tm = 10000
  end.

(** A heartbeat tick or a transport error. *)
Definition tick_or_error (ev : event) : bool :=
  match ev with
  | EvTick _ _ _ | EvError _ => true
  | _ => false
  end.

(** No timer at all is pending. *)
Definition no_timer (st : state) : Prop :=
  forall t tm, timers st !! t = Some tm -> active tm = false.

(** ** A reference [JSON.parse] for the examples

    The statements about [onmessage] hold for every [JSON_parse].  The
    examples run them with this reader of the JSON subset they need: the
    literals, integral numbers, strings with the single-character escapes,
    arrays and objects (a repeated key keeps its last value). *)

Module Reader.

Definition dquote : ascii := ascii_of_nat 34.

Definition is_ws (c : ascii) : bool :=
  match nat_of_ascii c with
  | 32%nat | 9%nat | 10%nat | 13%nat => true
  | _ => false
  end.

Definition is_digit (c : ascii) : bool :=
  let n := nat_of_ascii c in (48 <=? n)%nat && (n <=? 57)%nat.

Fixpoint skip_ws (s : list ascii) : list ascii :=
  match s with
  | c :: rest => if is_ws c then skip_ws rest else s
  | [] => []
  end.

(** The characters of a string literal after its opening quote. *)
Fixpoint read_chars (s : list ascii) : option (string * list ascii) :=
  match s with
  | [] => None
  | c :: rest =>
      if Ascii.eqb c dquote then Some (EmptyString, rest)
      else if Ascii.eqb c "\"%char then
        match rest with
        | e :: rest' =>
            let unescaped :=
              if Ascii.eqb e dquote then Some dquote
              else if Ascii.eqb e "\"%char then Some "\"%char
              else if Ascii.eqb e "/"%char then Some "/"%char
              else if Ascii.eqb e "n"%char then Some (ascii_of_nat 10)
              else if Ascii.eqb e "t"%char then Some (ascii_of_nat 9)
              else if Ascii.eqb e "r"%char then Some (ascii_of_nat 13)
              else None in
            match unescaped, read_chars rest' with
            | Some u, Some (str, after) => Some (String u str, after)
            | _, _ => None
            end
        | [] => None
        end
      else if (nat_of_ascii c <? 32)%nat then None
      else
        match read_chars rest with
        | Some (str, after) => Some (String c str, after)
        | None => None
        end
  end.

Fixpoint read_digits (s : list ascii) (acc : Z) : Z * list ascii :=
  match s with
  | c :: rest =>
      if is_digit c
      then read_digits rest (10 * acc + Z.of_nat (nat_of_ascii c - 48))
      else (acc, s)
  | [] => (acc, [])
  end.

(** A number without fraction or exponent, and without leading zeros. *)
Definition read_number (s : list ascii) : option (Z * list ascii) :=
  let '(neg, ds) :=
    match s with
    | c :: rest => if Ascii.eqb c "-"%char then (true, rest) else (false, s)
    | [] => (false, s)
    end in
  match ds with
  | d :: more =>
      if negb (is_digit d) then None
      else if Ascii.eqb d "0"%char && match more with m :: _ => is_digit m | [] => false end
      then None
      else
        let '(n, after) := read_digits ds 0 in
        match after with
        | c :: _ =>
            if Ascii.eqb c "."%char || Ascii.eqb c "e"%char || Ascii.eqb c "E"%char
            then None
            else Some (if neg then - n else n, after)
        | [] => Some (if neg then - n else n, after)
        end
  | [] => None
  end.

Fixpoint upsert (k : string) (v : json) (fields : list (string * json))
  : list (string * json) :=
  match fields with
  | [] => [(k, v)]
  | (k', v') :: rest =>
      if String.eqb k k' then (k, v) :: rest else (k', v') :: upsert k v rest
  end.

Fixpoint read_value (fuel : nat) (s : list ascii) : option (json * list ascii) :=
  match fuel with
  | O => None
  | S fuel' =>
      match skip_ws s with
      | "n"%char :: "u"%char :: "l"%char :: "l"%char :: rest => Some (JNull, rest)
      | "t"%char :: "r"%char :: "u"%char :: "e"%char :: rest => Some (JBool true, rest)
      | "f"%char :: "a"%char :: "l"%char :: "s"%char :: "e"%char :: rest =>
          Some (JBool false, rest)
      | "["%char :: rest =>
          match skip_ws rest with
          | "]"%char :: after => Some (JArr [], after)
          | _ =>
              match read_items fuel' rest with
              | Some (items, after) => Some (JArr items, after)
              | None => None
              end
          end
      | "{"%char :: rest =>
          match skip_ws rest with
          | "}"%char :: after => Some (JObj [], after)
          | _ =>
              match read_fields fuel' rest [] with
              | Some (fields, after) => Some (JObj fields, after)
              | None => None
              end
          end
      | c :: rest =>
          if Ascii.eqb c dquote then
            match read_chars rest with
            | Some (str, after) => Some (JStr str, after)
            | None => None
            end
          else
            match read_number (c :: rest) with
            | Some (n, after) => Some (JNum n, after)
            | None => None
            end
      | [] => None
      end
  end
with read_items (fuel : nat) (s : list ascii) : option (list json * list ascii) :=
  match fuel with
  | O => None
  | S fuel' =>
      match read_value fuel' s with
      | Some (v, after) =>
          match skip_ws after with
          | ","%char :: more =>
              match read_items fuel' more with
              | Some (vs, final) => Some (v :: vs, final)
              | None => None
              end
          | "]"%char :: final => Some ([v], final)
          | _ => None
          end
      | None => None
      end
  end
with read_fields (fuel : nat) (s : list ascii) (acc : list (string * json))
  : option (list (string * json) * list ascii) :=
  match fuel with
  | O => None
  | S fuel' =>
      match skip_ws s with
      | c :: rest =>
          if Ascii.eqb c dquote then
            match read_chars rest with
            | Some (k, after) =>
                match skip_ws after with
                | ":"%char :: more =>
                    match read_value fuel' more with
                    | Some (v, after') =>
                        let acc' := upsert k v acc in
                        match skip_ws after' with
                        | ","%char :: next => read_fields fuel' next acc'
                        | "}"%char :: final => Some (acc', final)
                        | _ => None
                        end
                    | None => None
                    end
                | _ => None
                end
            | None => None
            end
          else None
      | [] => None
      end
  end.

Definition parse (text : string) : option json :=
  let s := list_ascii_of_string text in
  match read_value (S (length s)) s with
  | Some (v, rest) => match skip_ws rest with [] => Some v | _ => None end
  | None => None
  end.

(** [q "k"] is the JSON string literal of [k] (for texts without escapes). *)
Definition q (k : string) : string :=
  String dquote (String.append k (String dquote EmptyString)).

End Reader.

(** ** Sample inputs for the examples *)

Module Samples.
Import Reader.

(** [{"type":"order","data":{"side":"buy","amount":1,"symbol":"BTC"}}] *)
Definition order_payload : string :=
  String.concat ""
    [ "{"; q "type"; ":"; q "order"; ","; q "data"; ":{"; q "side"; ":"; q "buy"; ",";
      q "amount"; ":1,"; q "symbol"; ":"; q "BTC"; "}}" ]%string.

Definition order_message : json :=
  JObj [ ("type", JStr "order");
         ("data", JObj [("side", JStr "buy"); ("amount", JNum 1); ("symbol", JStr "BTC")]) ]%string.

(** [{"type":"pong"}] *)
Definition pong_payload : string :=
  String.concat "" [ "{"; q "type"; ":"; q "pong"; "}" ]%string.

(** Mounted, the prober said online, socket 0 opened at time 1000 and its
    heartbeat interval (timer 0) is running. *)
Definition open_state : state :=
  mkState [] true 0%nat (Some 0%nat) None (Some 0%nat) 1000 true true
    [mkSocket OPEN 0 None]
    [mkTimer Interval 10000 0 true]
    [ENewSocket 0; ECheckStatus; ESetInterval 0 10000].

Definition to_open_state : list event :=
  [EvStatus true; EvEffect false; EvOpen 0%nat 1000].

(** Two connections in a row, each ended with a non-retry code: the server
    closes the first with 1000, the effect reconnects, and the second is
    closed by the heartbeat check (4000). *)
Definition two_clean_closes : list event :=
  [EvStatus true; EvEffect false; EvOpen 0%nat 1000; EvClose 0%nat 1000 true;
   EvEffect false; EvOpen 1%nat 5000; EvTick 1%nat 40000 false; EvClose 1%nat 4000 true].

(** [{"type":"log","level":"info","message":"started"}] *)
Definition log_payload : string :=
  String.concat ""
    [ "{"; q "type"; ":"; q "log"; ","; q "level"; ":"; q "info"; ",";
      q "message"; ":"; q "started"; "}" ]%string.

Definition log_message : json :=
  JObj [ ("type", JStr "log"); ("level", JStr "info"); ("message", JStr "started") ]%string.

(** [{"type":"market_data","data":{"price":100}}] *)
Definition market_payload : string :=
  String.concat ""
    [ "{"; q "type"; ":"; q "market_data"; ","; q "data"; ":{"; q "price"; ":100}}" ]%string.

Definition market_message : json :=
  JObj [ ("type", JStr "market_data"); ("data", JObj [("price", JNum 100)]) ]%string.

(** A connection that opens and receives a log line, an order, a pong and a
    market tick. *)
Definition session : list event :=
  to_open_state ++
  [ EvMessage 0%nat (Text log_payload) 1500; EvMessage 0%nat (Text order_payload) 1600;
    EvMessage 0%nat (Text pong_payload) 1700; EvMessage 0%nat (Text market_payload) 1800 ].

(** [{"type":"order","data":{"side":{"toString":1},"amount":1,"symbol":"BTC"}}] *)
Definition odd_order_payload : string :=
  String.concat ""
    [ "{"; q "type"; ":"; q "order"; ","; q "data"; ":{"; q "side"; ":{"; q "toString";
      ":1},"; q "amount"; ":1,"; q "symbol"; ":"; q "BTC"; "}}" ]%string.

Definition odd_order_message : json :=
  JObj [ ("type", JStr "order");
         ("data", JObj [("side", JObj [("toString", JNum 1)]); ("amount", JNum 1);
                        ("symbol", JStr "BTC")]) ]%string.

(** [{"type":"position_update"}] and
    [{"type":"position_update","data":[{"symbol":"BTC","amount":1,"pnl":2}]}] *)
Definition bare_update : msgval :=
  MJson (JObj [("type", JStr "position_update")]%string).

Definition one_position : json :=
  JArr [JObj [("symbol", JStr "BTC"); ("amount", JNum 1); ("pnl", JNum 2)]%string].

Definition position_update : msgval :=
  MJson (JObj [("type", JStr "position_update"); ("data", one_position)]%string).

(** The component is unmounted while its first socket is still connecting. *)
Definition unmount_while_connecting : list event :=
  [EvStatus true; EvEffect false; EvUnmount].

Definition abandoned_state : state :=
  mkState [] false 0%nat None None None 0 true false
    [mkSocket CLOSING 0 (Some 1000)]
    []
    [ENewSocket 0; EClose 0 1000].

(** The connection opens and is then lost with code 1006. *)
Definition lost_connection : list event :=
  to_open_state ++ [EvClose 0%nat 1006 false].

(** Two late heartbeat ticks with a transport error between them. *)
Definition silent_ticks : list event :=
  [EvTick 0%nat 31001 false; EvError 0%nat; EvTick 0%nat 60000 false].

End Samples.

(** * Properties *)

(** ** The heartbeat's ping *)

Lemma sendHeartbeat_cases now send_throws st :
  sendHeartbeat now send_throws st = st \/
  exists id, socketRef st = Some id /\ socket_state id st = Some OPEN /\
             send_throws = false /\
             sendHeartbeat now send_throws st = emit (ESend id now) st.
Proof.
  unfold sendHeartbeat.
  destruct (socketRef st) as [id|] eqn:Href; [|by left].
  destruct (socket_state id st) as [[]|] eqn:Hrs; try by left.
  destruct send_throws; [by left|].
  right. exists id. by rewrite Hrs.
Qed.

Lemma sendHeartbeat_not_open now send_throws st :
  current_state st <> Some OPEN -> sendHeartbeat now send_throws st = st.
Proof.
  intros Hno.
  destruct (sendHeartbeat_cases now send_throws st) as [->|(id & Href & Hrs & _)]; [done|].
  exfalso. apply Hno. unfold current_state. by rewrite Href.
Qed.

Lemma sendHeartbeat_throws now st : sendHeartbeat now true st = st.
Proof.
  by destruct (sendHeartbeat_cases now true st) as [->|(? & _ & _ & ? & _)].
Qed.

(** C10. On a heartbeat tick a ping goes out only when the current handle is
    [OPEN]: with no handle, or a handle that is [CONNECTING], [CLOSING] or
    [CLOSED], [sendHeartbeat] does nothing; on an open handle a send that
    returns is the one effect, and it touches no other part of the state.  A
    send that throws is caught: [sendHeartbeat] then leaves the whole state as
    it was (no close, no transition), and the tick goes on with
    [checkConnection] on the unchanged state. *)
Theorem ping_only_on_open_handle (v : variant) (now : Z) (send_throws : bool) (st : state) :
  (current_state st <> Some OPEN -> sendHeartbeat now send_throws st = st) /\
  (forall id, socketRef st = Some id -> socket_state id st = Some OPEN ->
              sendHeartbeat now false st = emit (ESend id now) st) /\
  (forall e, trace (sendHeartbeat now send_throws st) = trace st ++ [e] ->
             exists id, e = ESend id now /\ socketRef st = Some id /\
                        socket_state id st = Some OPEN) /\
  sendHeartbeat now true st = st /\
  heartbeatTick v now true st =
    match checkConnection v now st with Some st' => st' | None => st end.
Proof.
  repeat split.
  - apply sendHeartbeat_not_open.
  - intros id Href Hrs. unfold sendHeartbeat. by rewrite Href, Hrs.
  - intros e He.
    destruct (sendHeartbeat_cases now send_throws st) as [Heq|(id & Href & Hrs & _ & Heq)];
      rewrite Heq in He.
    + exfalso. rewrite <- (app_nil_r (trace st)) in He at 1.
      by apply app_inv_head in He.
    + simpl in He. apply app_inv_head in He. exists id. by inversion He.
  - apply sendHeartbeat_throws.
  - unfold heartbeatTick. by rewrite sendHeartbeat_throws.
Qed.

(** ** Inbound messages *)

Section Inbound.

Context (JSON_parse : string -> option json) (onMessage : bool).

Lemma tagged_object j tag :
  tagged j tag -> exists fields, j = JObj fields /\ assoc "type" fields = Some (JStr tag).
Proof.
  unfold tagged. destruct j; simpl; intros H; try discriminate.
  eexists. split; [reflexivity|]. congruence.
Qed.

(** C8. A parsed message tagged [pong] or [connection] stamps [lastPongRef]
    with the current time and nothing else happens, in both versions of the
    component: the handler's result is the old state with the new stamp, so
    the history and the observer never see the message. *)
Theorem pong_only_stamps_lastPong (v : variant) (raw : string) (j : json) (now : Z)
    (st : state) :
  JSON_parse raw = Some j ->
  tagged j "pong" \/ tagged j "connection" ->
  let st' := onmessage JSON_parse onMessage v (Text raw) now st in
  st' = set_lastPongRef now st /\
  lastPongRef st' = now /\
  messages st' = messages st /\
  trace st' = trace st.
Proof.
  intros Hparse Htag.
  assert (Heq : onmessage JSON_parse onMessage v (Text raw) now st = set_lastPongRef now st).
  { destruct Htag as [Htag|Htag];
      destruct (tagged_object _ _ Htag) as (fields & -> & Hty);
      destruct v; simpl;
      unfold onmessage_tolerant, onmessage_strict;
      rewrite Hparse; simpl; rewrite Hty; reflexivity. }
  simpl. rewrite Heq. by destruct st.
Qed.

(** A frame that does not parse changes nothing, in both versions. *)
Lemma unparseable_ignored (v : variant) (raw : string) (now : Z) (st : state) :
  JSON_parse raw = None ->
  onmessage JSON_parse onMessage v (Text raw) now st = st.
Proof.
  intros Hparse. destruct v; simpl.
  - unfold onmessage_tolerant. rewrite Hparse. simpl.
    by destruct (negb (String.eqb raw "")).
  - unfold onmessage_strict. by rewrite Hparse.
Qed.

(** C5, as the code has it.  A text frame that [JSON.parse] rejects is kept
    as raw text by [Tolerant] and dropped by [Strict]; in both the handler
    returns the state it was given.  So the payload is not forwarded to the
    observer and not added to the history, and the connection is left as it
    was: the handle keeps its ready state, no close is started and no timer
    is touched. *)
Theorem unparseable_payload_leaves_state (v : variant) (id : nat) (raw : string)
    (now : Z) (st : state) :
  JSON_parse raw = None ->
  socket_state id st = Some OPEN ->
  step JSON_parse onMessage v (EvMessage id (Text raw) now) st = Some st /\
  (forall st', step JSON_parse onMessage v (EvMessage id (Text raw) now) st = Some st' ->
     trace st' = trace st /\ messages st' = messages st /\
     socket_state id st' = Some OPEN /\ timers st' = timers st).
Proof.
  intros Hparse Hopen.
  assert (Hstep : step JSON_parse onMessage v (EvMessage id (Text raw) now) st = Some st).
  { simpl. rewrite Hopen. f_equal. by apply unparseable_ignored. }
  split; [exact Hstep|].
  intros st' Hst'. rewrite Hstep in Hst'. by inversion Hst'; subst.
Qed.

(** What [Strict] does with a parsed message that is neither [pong] nor
    [connection]: one entry in the history, one call of the observer. *)
Lemma strict_records_and_forwards (raw : string) (j : json) (ty : option json)
    (now : Z) (st : state) :
  JSON_parse raw = Some j ->
  get_prop (MJson j) "type" = Some ty ->
  is_str ty "pong" = false -> is_str ty "connection" = false ->
  onmessage JSON_parse onMessage Strict (Text raw) now st
  = notify onMessage (MJson j) (record (MJson j) st).
Proof.
  intros Hparse Hty Hp Hc. simpl. unfold onmessage_strict.
  by rewrite Hparse, Hty, Hp, Hc.
Qed.

(** What [Tolerant] does with an object, by its [type]. *)
Lemma tolerant_by_type (raw : string) (fields : list (string * json)) (tag : string)
    (now : Z) (st : state) :
  JSON_parse raw = Some (JObj fields) ->
  assoc "type" fields = Some (JStr tag) ->
  let m := MJson (JObj fields) in
  onmessage JSON_parse onMessage Tolerant (Text raw) now st =
    if String.eqb tag "pong" || String.eqb tag "connection" then set_lastPongRef now st
    else if String.eqb tag "log" then notify onMessage m (record m st)
    else if String.eqb tag "order" then
      if order_text_throws m then st else record m st
    else if String.eqb tag "error" then
      if error_text_throws m then st else record m st
    else st.
Proof.
  intros Hparse Hty. simpl. unfold onmessage_tolerant.
  rewrite Hparse. simpl. rewrite Hty. simpl.
  destruct (String.eqb tag "pong"); simpl; [reflexivity|].
  destruct (String.eqb tag "connection"); simpl; [reflexivity|].
  destruct (String.eqb tag "log"); [reflexivity|].
  destruct (String.eqb tag "order"); reflexivity.
Qed.

End Inbound.

(** ** Close events and the reconnect timer *)

Lemma scheduled_snoc tr e :
  scheduled (tr ++ [e]) =
  scheduled tr ++ match e with ESetTimeout _ ms => [ms] | _ => [] end.
Proof. unfold scheduled. rewrite omap_app. by destruct e. Qed.

Lemma closes_snoc tr e :
  closes (tr ++ [e]) =
  closes tr ++ match e with EClose id code => [(id, code)] | _ => [] end.
Proof. unfold closes. rewrite omap_app. by destruct e. Qed.

Lemma retry_condition code :
  negb (code =? 1000) && negb (code =? 1005) && negb (code =? 4000) = negb (non_retry code).
Proof. unfold non_retry. by rewrite !negb_orb. Qed.

(** Clearing a timer leaves every other timer as it was and never makes a
    timer active. *)
Lemma clearTimer_active t st t' tm :
  timers (clearTimer t st) !! t' = Some tm -> active tm = true ->
  timers st !! t' = Some tm.
Proof.
  unfold clearTimer. destruct st as [? ? ? ? ? ? ? ? ? ? tms ?]. simpl.
  destruct (decide (t = t')) as [->|Hne].
  - rewrite list_lookup_alter_eq. destruct (tms !! t'); simpl; [|done].
    intros [= <-]. done.
  - by rewrite list_lookup_alter_ne.
Qed.

(** What [cancelHeartbeat] leaves alone. *)
Lemma cancelHeartbeat_frame st :
  let st' := cancelHeartbeat st in
  reconnectTimeoutRef st' = reconnectTimeoutRef st /\
  socketRef st' = socketRef st /\ sockets st' = sockets st /\
  messages st' = messages st /\ reconnectAttempts st' = reconnectAttempts st /\
  length (timers st') = length (timers st) /\
  (forall t tm, timers st' !! t = Some tm -> active tm = true -> timers st !! t = Some tm) /\
  scheduled (trace st') = scheduled (trace st) /\
  closes (trace st') = closes (trace st).
Proof.
  unfold cancelHeartbeat. destruct (heartbeatIntervalRef st) as [t|] eqn:Href; simpl.
  - repeat split; try done.
    + apply length_alter.
    + intros t' tm. apply (clearTimer_active t st).
    + by rewrite scheduled_snoc, app_nil_r.
    + by rewrite closes_snoc, app_nil_r.
  - repeat split; done.
Qed.

(** [onclose] with a non-retry code: only the connected flag and the
    heartbeat interval change. *)
Lemma onclose_non_retry r code wasClean st :
  non_retry code = true ->
  onclose r code wasClean st = cancelHeartbeat (set_isConnected false st).
Proof. intros H. unfold onclose. by rewrite retry_condition, H. Qed.

(** [onclose] with any other code schedules one reconnect with the delay of
    the attempts its closure saw. *)
Lemma onclose_retry r code wasClean st :
  non_retry code = false ->
  onclose r code wasClean st = scheduleReconnect r (cancelHeartbeat (set_isConnected false st)).
Proof. intros H. unfold onclose. by rewrite retry_condition, H. Qed.

Section Closing.

Context (JSON_parse : string -> option json) (onMessage : bool).

Lemma nothing_scheduled_refl st : nothing_scheduled st st.
Proof. by repeat split. Qed.

Lemma nothing_scheduled_trans st1 st2 st3 :
  nothing_scheduled st1 st2 -> nothing_scheduled st2 st3 -> nothing_scheduled st1 st3.
Proof.
  intros (Hr1 & Hl1 & Ht1 & Hs1) (Hr2 & Hl2 & Ht2 & Hs2).
  repeat split; try congruence. eauto.
Qed.

Lemma close_step_non_retry v id code wasClean st st' :
  non_retry code = true ->
  step JSON_parse onMessage v (EvClose id code wasClean) st = Some st' ->
  nothing_scheduled st st'.
Proof.
  intros Hcode Hstep. simpl in Hstep.
  destruct (sockets st !! id) as [s|]; [|done].
  assert (st' = onclose (seenAttempts s) code wasClean (set_readyState id CLOSED st)) as ->
    by (destruct (readyState s); congruence).
  rewrite onclose_non_retry by done.
  destruct (cancelHeartbeat_frame (set_isConnected false (set_readyState id CLOSED st)))
    as (Hr & _ & _ & _ & _ & Hl & Ht & Hs & _).
  repeat split; [exact Hr|exact Hl|exact Ht|exact Hs].
Qed.

End Closing.

(** ** Building blocks of [connectWebSocket] *)

Lemma cancelReconnect_frame st :
  let st' := cancelReconnect st in
  reconnectTimeoutRef st' = None /\
  heartbeatIntervalRef st' = heartbeatIntervalRef st /\
  socketRef st' = socketRef st /\ sockets st' = sockets st /\
  messages st' = messages st /\ reconnectAttempts st' = reconnectAttempts st /\
  length (timers st') = length (timers st) /\
  (forall t tm, timers st' !! t = Some tm -> active tm = true -> timers st !! t = Some tm) /\
  scheduled (trace st') = scheduled (trace st) /\
  closes (trace st') = closes (trace st).
Proof.
  unfold cancelReconnect. destruct (reconnectTimeoutRef st) as [t|] eqn:Href; simpl.
  - repeat split; try done.
    + apply length_alter.
    + intros t' tm. apply (clearTimer_active t st).
    + by rewrite scheduled_snoc, app_nil_r.
    + by rewrite closes_snoc, app_nil_r.
  - repeat split; done.
Qed.

Lemma scheduleReconnect_spec r st :
  let st' := scheduleReconnect r st in
  reconnectTimeoutRef st' = Some (length (timers st)) /\
  timers st' = timers st ++ [mkTimer Timeout (backoff r) r true] /\
  trace st' = trace st ++ [ESetTimeout (length (timers st)) (backoff r)] /\
  socketRef st' = socketRef st /\ sockets st' = sockets st /\
  messages st' = messages st /\ reconnectAttempts st' = reconnectAttempts st /\
  heartbeatIntervalRef st' = heartbeatIntervalRef st.
Proof. by repeat split. Qed.

(** [close(code)] on the current handle: only that handle changes, and only
    from live to [CLOSING]. *)
Lemma closeCurrent_spec code st :
  let st' := closeCurrent code st in
  socketRef st' = socketRef st /\ timers st' = timers st /\
  reconnectTimeoutRef st' = reconnectTimeoutRef st /\
  heartbeatIntervalRef st' = heartbeatIntervalRef st /\
  messages st' = messages st /\ reconnectAttempts st' = reconnectAttempts st /\
  length (sockets st') = length (sockets st) /\
  scheduled (trace st') = scheduled (trace st) /\
  (forall i, socketRef st <> Some i -> sockets st' !! i = sockets st !! i) /\
  (forall i s, socketRef st = Some i -> sockets st !! i = Some s ->
     sockets st' !! i =
       Some (if live s then mkSocket CLOSING (seenAttempts s) (Some code) else s)).
Proof.
  unfold closeCurrent, do_close.
  destruct (socketRef st) as [id|] eqn:Href; [|by repeat split].
  destruct (sockets st !! id) as [s|] eqn:Hs; [|by repeat split; try done; congruence].
  destruct (live s) eqn:Hlive; simpl.
  - repeat split; try done.
    + apply length_insert.
    + by rewrite scheduled_snoc, app_nil_r.
    + intros i Hi. apply list_lookup_insert_ne. congruence.
    + intros i s' [= <-] Hs'. rewrite Hs in Hs'. injection Hs' as <-.
      rewrite Hlive. apply list_lookup_insert_eq. by eapply lookup_lt_Some.
  - repeat split; try done.
    intros i s' [= <-] Hs'. rewrite Hs in Hs'. injection Hs' as <-. by rewrite Hlive.
Qed.

(** [connectWebSocket] when the constructor returns. *)
Lemma connectWebSocket_created r st :
  let st' := connectWebSocket r false st in
  let id := length (sockets st) in
  socketRef st' = Some id /\
  sockets st' !! id = Some (mkSocket CONNECTING r None) /\
  length (sockets st') = S (length (sockets st)) /\
  reconnectTimeoutRef st' = None /\ heartbeatIntervalRef st' = None /\
  messages st' = messages st /\ reconnectAttempts st' = reconnectAttempts st /\
  length (timers st') = length (timers st) /\
  scheduled (trace st') = scheduled (trace st).
Proof.
  unfold connectWebSocket.
  destruct (cancelReconnect_frame st) as (R1 & R2 & R3 & R4 & R5 & R6 & R7 & _ & R9 & _).
  destruct (cancelHeartbeat_frame (cancelReconnect st))
    as (H1 & H2 & H3 & H4 & H5 & H6 & _ & H8 & _).
  assert (H0 : heartbeatIntervalRef (cancelHeartbeat (cancelReconnect st)) = None).
  { unfold cancelHeartbeat.
    by destruct (heartbeatIntervalRef (cancelReconnect st)) eqn:E. }
  destruct (closeCurrent_spec 4000 (cancelHeartbeat (cancelReconnect st)))
    as (C1 & C2 & C3 & C4 & C5 & C6 & C7 & C8 & _).
  cbv zeta in *.
  set (st3 := closeCurrent 4000 (cancelHeartbeat (cancelReconnect st))) in *.
  assert (Hlen : length (sockets st3) = length (sockets st)) by congruence.
  simpl. rewrite Hlen. repeat split; try congruence.
  - rewrite lookup_app_r by lia. by rewrite Hlen, Nat.sub_diag.
  - rewrite length_app. simpl. lia.
  - rewrite scheduled_snoc, app_nil_r. congruence.
Qed.

(** ** The heartbeat timeout *)

Lemma valid_4000 : valid_close_code 4000 = true.
Proof. reflexivity. Qed.

(** A tick on a handle that is already closing or closed does nothing. *)
Lemma heartbeatTick_not_live v now send_throws st id s :
  socketRef st = Some id -> sockets st !! id = Some s -> live s = false ->
  heartbeatTick v now send_throws st = st.
Proof.
  intros Href Hs Hlive.
  unfold heartbeatTick.
  rewrite sendHeartbeat_not_open.
  2:{ unfold current_state, socket_state. rewrite Href, Hs. simpl.
      unfold live in Hlive. destruct (readyState s); congruence. }
  unfold checkConnection, ws_close, do_close.
  destruct (30000 <? now - lastPongRef st); [|done].
  rewrite Href, Hs, Hlive. by destruct (valid_close_code _).
Qed.

Section Timeout.

Context (JSON_parse : string -> option json) (onMessage : bool).

(** C1, on the code.  [Tolerant]'s heartbeat check on an open handle that
    has been silent for more than 30 s starts the closing handshake with
    [PONG_TIMEOUT_CODE], once: a later tick finds the handle closing and
    does nothing.  But [PONG_TIMEOUT_CODE] is 4000, the code [onclose]
    never retries after, so the close event that completes this handshake
    schedules no reconnect at all. *)
Theorem pong_timeout_close_is_not_retried (id : nat) (s : socket) (now : Z)
  (send_throws wasClean : bool) (st : state) :
socketRef st = Some id -> sockets st !! id = Some s -> readyState s = OPEN ->
30000 < now - lastPongRef st ->
let st1 := heartbeatTick Tolerant now send_throws st in
closes (trace st1) = closes (trace st) ++ [(id, PONG_TIMEOUT_CODE Tolerant)] /\
sockets st1 !! id = Some (mkSocket CLOSING (seenAttempts s) (Some 4000)) /\
(forall now' send_throws', heartbeatTick Tolerant now' send_throws' st1 = st1) /\
non_retry (PONG_TIMEOUT_CODE Tolerant) = true /\
exists st2,
  step JSON_parse onMessage Tolerant (EvClose id 4000 wasClean) st1 = Some st2 /\
  nothing_scheduled st st2.
Proof.
intros Href Hs Hopen Hlate st1.
assert (Hlive : live s = true) by (unfold live; by rewrite Hopen).
assert (Hlt : (id < length (sockets st))%nat) by (by eapply lookup_lt_Some).
assert (Hst1 : exists tr,
  st1 = mkState (messages st) (isConnected st) (reconnectAttempts st) (socketRef st)
          (reconnectTimeoutRef st) (heartbeatIntervalRef st) (lastPongRef st)
          (isOnline st) (mounted st)
          (<[id := mkSocket CLOSING (seenAttempts s) (Some 4000)]> (sockets st))
          (timers st) (tr ++ [EClose id 4000]) /\
  closes tr = closes (trace st) /\ scheduled tr = scheduled (trace st)).
{ subst st1. unfold heartbeatTick.
  destruct (sendHeartbeat_cases now send_throws st) as [->|(id' & _ & _ & _ & ->)];
    unfold checkConnection, ws_close, do_close; simpl;
    apply Z.ltb_lt in Hlate; rewrite Hlate, Href, Hs, Hlive; simpl.
  - exists (trace st). unfold emit, set_sockets; simpl. by rewrite Href.
  - exists (trace st ++ [ESend id' now]). unfold emit, set_sockets; simpl.
    rewrite Href. repeat split.
    + by rewrite closes_snoc, app_nil_r.
    + by rewrite scheduled_snoc, app_nil_r. }
destruct Hst1 as (tr & Hst1 & Hcl & Hsch).
assert (Hnew : sockets st1 !! id = Some (mkSocket CLOSING (seenAttempts s) (Some 4000))).
{ rewrite Hst1. simpl. by apply list_lookup_insert_eq. }
repeat split.
- rewrite Hst1. simpl. by rewrite closes_snoc, Hcl.
- exact Hnew.
- intros now' thr'. apply heartbeatTick_not_live with id (mkSocket CLOSING (seenAttempts s) (Some 4000)); try done.
  by rewrite Hst1.
- eexists. split.
  + simpl. rewrite Hnew. simpl. reflexivity.
  + rewrite onclose_non_retry by done.
    destruct (cancelHeartbeat_frame (set_isConnected false (set_readyState id CLOSED st1)))
      as (Hr & _ & _ & _ & _ & Hl & Ht & Hs' & _).
    unfold nothing_scheduled. rewrite Hr, Hl, Hs'. 
    repeat split.
    * by rewrite Hst1.
    * by rewrite Hst1.
    * intros t tm H1 H2. specialize (Ht t tm H1 H2). by rewrite Hst1 in Ht.
    * rewrite Hst1. simpl. by rewrite scheduled_snoc, app_nil_r.
Qed.
End Timeout.

(** ** The backoff *)

Section Backoff.
Context (JSON_parse : string -> option json) (onMessage : bool).

(** A close event with a retry code: the handler's state and schedule. *)
Lemma close_step_retry v id s code wasClean st :
  sockets st !! id = Some s -> readyState s <> CLOSED -> non_retry code = false ->
  exists st1,
    step JSON_parse onMessage v (EvClose id code wasClean) st = Some st1 /\
    scheduled (trace st1) = scheduled (trace st) ++ [backoff (seenAttempts s)] /\
    reconnectTimeoutRef st1 = Some (length (timers st)) /\
    timers st1 !! length (timers st)
      = Some (mkTimer Timeout (backoff (seenAttempts s)) (seenAttempts s) true) /\
    length (sockets st1) = length (sockets st) /\
    reconnectAttempts st1 = reconnectAttempts st.
Proof.
  intros Hs Hrs Hcode.
  exists (onclose (seenAttempts s) code wasClean (set_readyState id CLOSED st)).
  split.
  { simpl. rewrite Hs. by destruct (readyState s). }
  rewrite onclose_retry by done.
  set (st0 := set_isConnected false (set_readyState id CLOSED st)).
  destruct (cancelHeartbeat_frame st0) as (_ & _ & Hso & _ & Hra & Hl & _ & Hsch & _).
  destruct (scheduleReconnect_spec (seenAttempts s) (cancelHeartbeat st0))
    as (Sr & St & Str & _ & Sso & _ & Sra & _).
  cbv zeta in *.
  assert (Hl0 : length (timers (cancelHeartbeat st0)) = length (timers st)) by by rewrite Hl.
  repeat split.
  - by rewrite Str, scheduled_snoc, Hsch.
  - by rewrite Sr, Hl0.
  - rewrite St, lookup_app_r by lia. by rewrite Hl0, Nat.sub_diag.
  - rewrite Sso, Hso. subst st0. simpl. apply length_alter.
  - by rewrite Sra, Hra.
Qed.

(** C3, on the code.  A socket whose handlers saw [r] attempts closes with a
    retry code: a reconnect is scheduled after [backoff r].  When that timer
    fires, [reconnectAttempts] goes up by one, but the callback calls the
    [connectWebSocket] it was created in, so the handlers of the new socket
    see [r] again; when the new socket fails in turn, the reconnect is
    scheduled after [backoff r] once more. *)
Theorem retry_delay_repeats (v : variant) (id : nat) (s : socket) (code : Z)
    (wasClean : bool) (st : state) :
  sockets st !! id = Some s -> readyState s <> CLOSED -> non_retry code = false ->
  let r := seenAttempts s in
  exists st1 st2,
    step JSON_parse onMessage v (EvClose id code wasClean) st = Some st1 /\
    scheduled (trace st1) = scheduled (trace st) ++ [backoff r] /\
    step JSON_parse onMessage v (EvTimeout (length (timers st)) false) st1 = Some st2 /\
    reconnectAttempts st2 = S (reconnectAttempts st) /\
    socketRef st2 = Some (length (sockets st)) /\
    forall code2 wasClean2, non_retry code2 = false ->
      exists st3,
        step JSON_parse onMessage v (EvClose (length (sockets st)) code2 wasClean2) st2
          = Some st3 /\
        scheduled (trace st3) = scheduled (trace st) ++ [backoff r; backoff r].
Proof.
  intros Hs Hrs Hcode r.
  destruct (close_step_retry v id s code wasClean st Hs Hrs Hcode)
    as (st1 & Hstep1 & Hsch1 & _ & Htm & Hlen1 & Hra1).
  set (st1' := set_reconnectAttempts (S (reconnectAttempts (clearTimer (length (timers st)) st1)))
                 (clearTimer (length (timers st)) st1)).
  destruct (connectWebSocket_created r st1')
    as (Cref & Cnew & _ & _ & _ & _ & Cra & _ & Csch).
  cbv zeta in *.
  assert (Hlen' : length (sockets st1') = length (sockets st)) by (by rewrite <- Hlen1).
  rewrite Hlen' in Cref, Cnew.
  exists st1, (connectWebSocket r false st1').
  repeat split; try done.
  - simpl. rewrite Htm. simpl. reflexivity.
  - rewrite Cra. simpl. by rewrite Hra1.
  - intros code2 wasClean2 Hcode2.
    destruct (close_step_retry v (length (sockets st))
                (mkSocket CONNECTING r None) code2 wasClean2
                (connectWebSocket r false st1') Cnew) as (st3 & Hstep3 & Hsch3 & _);
      [done|done|].
    exists st3. split; [exact Hstep3|].
    rewrite Hsch3, Csch. simpl. rewrite Hsch1. by rewrite <- app_assoc.
Qed.
End Backoff.
(** ** The message history *)

Ltac unfold_callbacks :=
  unfold cleanup, onlineEffect, reconnectCallback, onerror, onclose, onopen,
    connectWebSocket, scheduleReconnect, closeCurrent, cancelHeartbeat, cancelReconnect,
    heartbeatTick, checkConnection, sendHeartbeat, ws_close, do_close, socket_state,
    set_readyState, newTimer, clearTimer in *.

(** Unfold the callbacks and follow every branch. *)
Ltac frame :=
  intros; unfold_callbacks; repeat (case_match; simplify_eq/=; try done); try done.

Lemma messages_connectWebSocket r c st : messages (connectWebSocket r c st) = messages st.
Proof. frame. Qed.

Lemma messages_heartbeatTick v now thr st :
  messages (heartbeatTick v now thr st) = messages st.
Proof. frame. Qed.

Lemma messages_cleanup st : messages (cleanup st) = messages st.
Proof. frame. Qed.

Lemma messages_onclose r code wc st : messages (onclose r code wc st) = messages st.
Proof. frame. Qed.

Lemma messages_onopen r now st : messages (onopen r now st) = messages st.
Proof. frame. Qed.

Lemma messages_onerror v id st : messages (onerror v id st) = messages st.
Proof. frame. Qed.

Lemma pushMessage_cons m prev : pushMessage m prev = m :: take 99 prev.
Proof. reflexivity. Qed.

Lemma pushMessage_length m prev : (length (pushMessage m prev) <= 100)%nat.
Proof. unfold pushMessage. rewrite length_take. lia. Qed.

Lemma pushMessage_room m prev : (length prev < 100)%nat -> pushMessage m prev = m :: prev.
Proof. intros H. rewrite pushMessage_cons, take_ge; [done|lia]. Qed.

Lemma pushMessage_evicts m prev :
  length prev = 100%nat ->
  exists kept oldest, prev = kept ++ [oldest] /\ pushMessage m prev = m :: kept.
Proof.
  intros Hlen. rewrite pushMessage_cons.
  destruct (drop 99 prev) as [|oldest rest] eqn:Hdrop.
  - apply (f_equal length) in Hdrop. rewrite length_drop in Hdrop. simpl in Hdrop. lia.
  - assert (rest = []) as ->.
    { apply (f_equal length) in Hdrop. rewrite length_drop in Hdrop. simpl in Hdrop.
      destruct rest; [done|simpl in Hdrop; lia]. }
    exists (take 99 prev), oldest. split; [|done].
    by rewrite <- Hdrop, take_drop.
Qed.

Section History.

Context (JSON_parse : string -> option json) (onMessage : bool).

(** [onmessage] leaves the history alone or pushes the message it received. *)
Lemma onmessage_messages v d now st :
  let st' := onmessage JSON_parse onMessage v d now st in
  messages st' = messages st \/ exists m, messages st' = pushMessage m (messages st).
Proof.
  destruct v; simpl; unfold onmessage_tolerant, onmessage_strict, notify, record;
    repeat (case_match; simplify_eq/=; eauto).
Qed.

Lemma step_messages v ev st st' :
  step JSON_parse onMessage v ev st = Some st' ->
  messages st' = messages st \/ exists m, messages st' = pushMessage m (messages st).
Proof.
  destruct ev; cbn [step]; intros Hstep; repeat (case_match; simplify_eq; try done).
  - by left.
  - left. unfold onlineEffect. case_match; [apply messages_connectWebSocket|done].
  - left. by rewrite messages_onopen.
  - apply onmessage_messages.
  - left. by rewrite messages_onclose.
  - left. by rewrite messages_onclose.
  - left. by rewrite messages_onclose.
  - left. by rewrite messages_onerror.
  - left. by rewrite messages_heartbeatTick.
  - left. unfold reconnectCallback. by rewrite messages_connectWebSocket.
  - left. by rewrite messages_cleanup.
Qed.

Lemma run_messages_bounded v evs st st' :
  (length (messages st) <= 100)%nat ->
  run JSON_parse onMessage v evs st = Some st' ->
  (length (messages st') <= 100)%nat.
Proof.
  revert st. induction evs as [|ev evs IH]; intros st Hlen Hrun; simpl in Hrun.
  - by simplify_eq.
  - destruct (step JSON_parse onMessage v ev st) as [st1|] eqn:Hstep; [|done].
    apply (IH st1); [|done].
    destruct (step_messages _ _ _ _ Hstep) as [->|[m ->]]; [done|].
    apply pushMessage_length.
Qed.

(** [Tolerant]'s handler as a three-way decision on the received value. *)
Lemma onmessage_tolerant_decision d now st :
  onmessage JSON_parse onMessage Tolerant d now st =
  let m := received JSON_parse d in
  if heartbeat_reply m then set_lastPongRef now st
  else if displayable m
       then if is_log m then notify onMessage m (record m st) else record m st
       else st.
Proof.
  cbn [onmessage]. unfold onmessage_tolerant. fold (received JSON_parse d).
  set (m := received JSON_parse d). cbv zeta.
  unfold heartbeat_reply, displayable, is_log, data_of.
  destruct (get_prop m "type") as [ty|] eqn:Hty.
  - assert (Hleft : (if truthy m then is_str ty "pong" else false) = is_str ty "pong").
    { destruct (truthy m) eqn:Ht; [done|].
      destruct m as [[]|]; simpl in *; simplify_eq; done. }
    rewrite Hleft.
    destruct ty as [[| | |s| |]|]; simpl; try done.
    destruct (String.eqb_spec s "pong") as [->|_]; [done|].
    destruct (String.eqb_spec s "connection") as [->|_]; [done|].
    destruct (String.eqb_spec s "log") as [->|_]; [done|].
    destruct (String.eqb_spec s "order") as [->|_]; simpl.
    { by destruct (order_text_throws m). }
    destruct (String.eqb_spec s "error") as [->|_]; simpl; [|done].
    by destruct (error_text_throws m).
  - by destruct (truthy m).
Qed.

(** What [onmessage] does to the history: it pushes the entry of the frame. *)
Lemma onmessage_entry v d now st :
  messages (onmessage JSON_parse onMessage v d now st) =
  match history_entry JSON_parse v d with
  | Some m => pushMessage m (messages st)
  | None => messages st
  end.
Proof.
  destruct v.
  - rewrite onmessage_tolerant_decision. cbv zeta. unfold history_entry. cbv zeta.
    destruct (heartbeat_reply _); [done|].
    destruct (displayable _); [|done].
    unfold notify. by destruct (is_log _), onMessage.
  - cbn [onmessage history_entry]. unfold onmessage_strict. cbv zeta.
    destruct (JSON_parse _) as [j|]; [|done].
    unfold heartbeat_reply.
    destruct (get_prop (MJson j) "type") as [ty|]; [|done].
    destruct (is_str ty "pong" || is_str ty "connection"); [done|].
    unfold notify. by destruct onMessage.
Qed.

Lemma step_entry v ev st st' :
  step JSON_parse onMessage v ev st = Some st' ->
  messages st' =
  match entry_of JSON_parse v ev with
  | Some m => pushMessage m (messages st)
  | None => messages st
  end.
Proof.
  destruct ev; cbn [step entry_of]; intros Hstep.
  - destruct (mounted st); by simplify_eq.
  - destruct (mounted st); simplify_eq. unfold onlineEffect.
    case_match; [apply messages_connectWebSocket|done].
  - destruct (sockets st !! id) as [s|]; [|done].
    destruct (readyState s); simplify_eq. by rewrite messages_onopen.
  - destruct (socket_state id st) as [[]|]; simplify_eq. apply onmessage_entry.
  - destruct (sockets st !! id) as [s|]; [|done].
    destruct (readyState s); simplify_eq; by rewrite messages_onclose.
  - destruct (sockets st !! id); simplify_eq. by rewrite messages_onerror.
  - destruct (timers st !! t) as [tm|]; [|done].
    destruct (timer_is Interval tm); simplify_eq. by rewrite messages_heartbeatTick.
  - destruct (timers st !! t) as [tm|]; [|done].
    destruct (timer_is Timeout tm); simplify_eq.
    unfold reconnectCallback. by rewrite messages_connectWebSocket.
  - destruct (mounted st); simplify_eq. by rewrite messages_cleanup.
Qed.

Lemma take_app_take {A} (n : nat) (l k : list A) :
  take n (l ++ take n k) = take n (l ++ k).
Proof. rewrite !take_app, take_take. f_equal. f_equal. lia. Qed.

(** The history after a run: the entries of its events, newest first, on top
    of what was there, cut at 100. *)
Lemma run_entries v evs st st' :
  run JSON_parse onMessage v evs st = Some st' ->
  (length (messages st) <= 100)%nat ->
  messages st' = take 100 (reverse (omap (entry_of JSON_parse v) evs) ++ messages st).
Proof.
  revert st. induction evs as [|ev evs IH]; intros st Hrun Hlen; simpl in Hrun.
  - simplify_eq. simpl. by rewrite take_ge.
  - destruct (step JSON_parse onMessage v ev st) as [st1|] eqn:Hstep; [|done].
    assert (Hlen1 : (length (messages st1) <= 100)%nat).
    { rewrite (step_entry _ _ _ _ Hstep). destruct (entry_of _ _ _); [|done].
      apply pushMessage_length. }
    rewrite (IH st1 Hrun Hlen1), (step_entry _ _ _ _ Hstep). simpl.
    destruct (entry_of JSON_parse v ev) as [m|]; [|done].
    unfold pushMessage. rewrite take_app_take, reverse_cons, <- app_assoc. done.
Qed.

(** C7. In every state the component can reach, in either version, the
    history is the list of the messages the handler has accepted so far,
    newest first, cut at 100; so it never holds more than 100 messages.  An
    event that brings an accepted message puts that message first and keeps
    the order of the others: with room left nothing is dropped, and when the
    history was full the last (oldest) entry is dropped.  Every other event
    leaves the history as it was. *)
Theorem history_bounded_newest_first (v : variant) (mountedAt : Z) (evs : list event)
    (st : state) :
  run JSON_parse onMessage v evs (initial mountedAt) = Some st ->
  messages st = take 100 (reverse (omap (entry_of JSON_parse v) evs)) /\
  (length (messages st) <= 100)%nat /\
  (forall ev st', step JSON_parse onMessage v ev st = Some st' ->
     match entry_of JSON_parse v ev with
     | Some m =>
         messages st' = m :: take 99 (messages st) /\
         ((length (messages st) < 100)%nat -> messages st' = m :: messages st) /\
         (length (messages st) = 100%nat ->
          exists kept oldest, messages st = kept ++ [oldest] /\
                              messages st' = m :: kept)
     | None => messages st' = messages st
     end).
Proof.
  intros Hrun.
  assert (Hall : messages st = take 100 (reverse (omap (entry_of JSON_parse v) evs))).
  { rewrite (run_entries _ _ _ _ Hrun) by (simpl; lia). simpl. by rewrite app_nil_r. }
  split; [exact Hall|]. split.
  - rewrite Hall, length_take. lia.
  - intros ev st' Hstep. rewrite (step_entry _ _ _ _ Hstep).
    destruct (entry_of JSON_parse v ev) as [m|]; [|done].
    split; [apply pushMessage_cons|].
    split; [apply pushMessage_room|apply pushMessage_evicts].
Qed.

End History.
(** ** Normal forms of the callbacks *)

Ltac tidy :=
  rewrite ?length_alter, ?length_insert, ?app_nil_r, <- ?app_assoc; simpl; try done.

Lemma connectWebSocket_core r c st :
  let st' := connectWebSocket r c st in
  mounted st' = mounted st /\
  timers st' =
    clear_ref (heartbeatIntervalRef st) (clear_ref (reconnectTimeoutRef st) (timers st))
    ++ (if c then [mkTimer Timeout (backoff r) r true] else []) /\
  sockets st' =
    close_ref 4000 (socketRef st) (sockets st)
    ++ (if c then [] else [mkSocket CONNECTING r None]) /\
  socketRef st' = (if c then socketRef st else Some (length (sockets st))) /\
  reconnectTimeoutRef st' = (if c then Some (length (timers st)) else None) /\
  heartbeatIntervalRef st' = None /\
  trace st' =
    trace st ++ teardown_effects st
    ++ [if c then ESetTimeout (length (timers st)) (backoff r)
        else ENewSocket (length (sockets st))].
Proof.
  unfold teardown_effects, clear_ref, close_ref. 
  unfold_callbacks.
  destruct st as [msgs ic ra sref rref href lp on mt socks tms tr]; simpl.
  destruct rref, href, sref as [id|], c; simpl;
    try (destruct (socks !! id) as [s|] eqn:E4; simpl; rewrite ?E4; simpl;
         [destruct (live s) eqn:E5; simpl; rewrite ?E4, ?E5; simpl|]);
    repeat split; tidy.
Qed.

Lemma heartbeatTick_core v now thr st :
  let st' := heartbeatTick v now thr st in
  mounted st' = mounted st /\ timers st' = timers st /\
  socketRef st' = socketRef st /\
  reconnectTimeoutRef st' = reconnectTimeoutRef st /\
  heartbeatIntervalRef st' = heartbeatIntervalRef st /\
  (sockets st' = sockets st \/
   sockets st' = close_ref (PONG_TIMEOUT_CODE v) (socketRef st) (sockets st)).
Proof.
  unfold close_ref. unfold_callbacks.
  destruct st as [msgs ic ra sref rref href lp on mt socks tms tr]; simpl.
  repeat (case_match; simplify_eq/=); repeat split; auto.
Qed.

Lemma cleanup_core st :
  let st' := cleanup st in
  mounted st' = mounted st /\
  timers st' =
    clear_ref (reconnectTimeoutRef st) (clear_ref (heartbeatIntervalRef st) (timers st)) /\
  sockets st' = close_ref 1000 (socketRef st) (sockets st) /\
  socketRef st' = None /\ reconnectTimeoutRef st' = None /\ heartbeatIntervalRef st' = None.
Proof.
  unfold clear_ref, close_ref. unfold_callbacks.
  destruct st as [msgs ic ra sref rref href lp on mt socks tms tr]; simpl.
  destruct rref, href, sref as [id|]; simpl;
    try (destruct (socks !! id) as [s|] eqn:E4; simpl; rewrite ?E4; simpl;
         [destruct (live s) eqn:E5; simpl; rewrite ?E4, ?E5; simpl|]);
    repeat split; tidy.
Qed.

Lemma onclose_core r code wasClean st :
  let st' := onclose r code wasClean st in
  mounted st' = mounted st /\ sockets st' = sockets st /\ socketRef st' = socketRef st /\
  timers st' =
    clear_ref (heartbeatIntervalRef st) (timers st)
    ++ (if non_retry code then [] else [mkTimer Timeout (backoff r) r true]) /\
  reconnectTimeoutRef st' =
    (if non_retry code then reconnectTimeoutRef st else Some (length (timers st))) /\
  heartbeatIntervalRef st' = None.
Proof.
  unfold onclose. rewrite retry_condition. unfold clear_ref. unfold_callbacks.
  destruct st as [msgs ic ra sref rref href lp on mt socks tms tr]; simpl.
  destruct href, (non_retry code); simpl; repeat split; tidy.
Qed.

Lemma onopen_core r now st :
  let st' := onopen r now st in
  mounted st' = mounted st /\ sockets st' = sockets st /\ socketRef st' = socketRef st /\
  timers st' = timers st ++ [mkTimer Interval 10000 r true] /\
  reconnectTimeoutRef st' = reconnectTimeoutRef st /\
  heartbeatIntervalRef st' = Some (length (timers st)).
Proof. by repeat split. Qed.

Lemma onerror_returns v id st : onerror v id st = st.
Proof. unfold onerror. by repeat case_match. Qed.

Lemma onmessage_core JSON_parse onMessage v d now st :
  let st' := onmessage JSON_parse onMessage v d now st in
  mounted st' = mounted st /\ sockets st' = sockets st /\ socketRef st' = socketRef st /\
  timers st' = timers st /\
  reconnectTimeoutRef st' = reconnectTimeoutRef st /\
  heartbeatIntervalRef st' = heartbeatIntervalRef st.
Proof.
  destruct v; simpl; unfold onmessage_tolerant, onmessage_strict, notify, record;
    repeat (case_match; simplify_eq/=; try done).
Qed.

(** ** Timers and refs *)

Lemma timer_is_deactivate k tm : timer_is k (deactivate tm) = false.
Proof. unfold timer_is. simpl. by destruct (kind tm), k. Qed.

Lemma timer_is_other k k' d r a : k <> k' -> timer_is k (mkTimer k' d r a) = false.
Proof. unfold timer_is. simpl. by destruct k, k'. Qed.

Lemma no_active_alter k t tms : no_active k tms -> no_active k (alter deactivate t tms).
Proof.
  intros H t' tm. destruct (decide (t = t')) as [->|Hne].
  - rewrite list_lookup_alter_eq. destruct (tms !! t'); simpl; [|done].
    intros [= <-]. apply timer_is_deactivate.
  - rewrite list_lookup_alter_ne by done. apply H.
Qed.

Lemma no_active_clear_ref k ref tms : no_active k tms -> no_active k (clear_ref ref tms).
Proof. destruct ref; simpl; [apply no_active_alter|done]. Qed.

Lemma held_by_clear_ref k ref tms : held_by k ref tms -> no_active k (clear_ref ref tms).
Proof.
  intros H t' tm Hlook. destruct (timer_is k tm) eqn:Hact; [exfalso|done].
  destruct ref as [t|]; simpl in Hlook.
  - destruct (decide (t = t')) as [->|Hne].
    + rewrite list_lookup_alter_eq in Hlook. destruct (tms !! t'); simplify_eq/=.
      by rewrite timer_is_deactivate in Hact.
    + rewrite list_lookup_alter_ne in Hlook by done.
      specialize (H _ _ Hlook Hact). congruence.
  - by specialize (H _ _ Hlook Hact).
Qed.

Lemma held_by_alter k ref t tms : held_by k ref tms -> held_by k ref (alter deactivate t tms).
Proof.
  intros H t' tm. destruct (decide (t = t')) as [->|Hne].
  - rewrite list_lookup_alter_eq. destruct (tms !! t'); simpl; [|done].
    intros [= <-]. by rewrite timer_is_deactivate.
  - rewrite list_lookup_alter_ne by done. apply H.
Qed.

Lemma no_active_held k ref tms : no_active k tms -> held_by k ref tms.
Proof. intros H t tm Hlook Hact. by rewrite (H _ _ Hlook) in Hact. Qed.

Lemma no_active_snoc k tms tm :
  no_active k tms -> timer_is k tm = false -> no_active k (tms ++ [tm]).
Proof.
  intros H Htm t tm' Hlook. apply lookup_app_Some in Hlook as [Hlook|[_ Hlook]].
  - by eapply H.
  - apply list_lookup_singleton_Some in Hlook as [_ <-]. done.
Qed.

Lemma held_by_snoc k tms tm :
  no_active k tms -> held_by k (Some (length tms)) (tms ++ [tm]).
Proof.
  intros H t tm' Hlook Hact. apply lookup_app_Some in Hlook as [Hlook|[Hge Hlook]].
  - by rewrite (H _ _ Hlook) in Hact.
  - apply list_lookup_singleton_Some in Hlook as [Hz _]. f_equal. lia.
Qed.

Lemma no_active_inactive tms :
  no_active Timeout tms -> no_active Interval tms ->
  forall t tm, tms !! t = Some tm -> active tm = false.
Proof.
  intros HT HI t tm Hlook. specialize (HT _ _ Hlook). specialize (HI _ _ Hlook).
  unfold timer_is in *. by destruct (kind tm).
Qed.

(** ** Sockets and the current handle *)

Lemma all_closed_close_ref code ref socks :
  all_closed socks -> close_ref code ref socks = socks.
Proof.
  intros H. unfold close_ref. destruct ref as [id|]; [|done].
  destruct (socks !! id) as [s|] eqn:Hs; [|done].
  unfold live. by rewrite (H _ _ Hs).
Qed.

Lemma close_ref_lookup code ref socks i s' :
  close_ref code ref socks !! i = Some s' ->
  socks !! i = Some s' \/
  (ref = Some i /\ readyState s' = CLOSING /\ closeCode s' = Some code /\
   exists s, socks !! i = Some s /\ live s = true).
Proof.
  unfold close_ref. destruct ref as [id|]; [|by left].
  destruct (socks !! id) as [s|] eqn:Hs; [|by left].
  destruct (live s) eqn:Hlive; [|by left].
  destruct (decide (id = i)) as [->|Hne].
  - rewrite list_lookup_insert_eq by (by eapply lookup_lt_Some).
    intros [= <-]. right. eauto 10.
  - rewrite list_lookup_insert_ne by done. by left.
Qed.

Lemma close_ref_length code ref socks : length (close_ref code ref socks) = length socks.
Proof. unfold close_ref. repeat case_match; by rewrite ?length_insert. Qed.

Lemma only_handle_close_ref code ref h socks :
  only_handle h socks -> only_handle h (close_ref code ref socks).
Proof.
  intros [(s & Hs & Hopen) Hothers]. split.
  - unfold close_ref. destruct ref as [id|]; [|eauto].
    destruct (socks !! id) as [s0|] eqn:Hs0; [|eauto].
    destruct (live s0) eqn:Hlive; [|eauto].
    destruct (decide (id = h)) as [->|Hne].
    + eexists. rewrite list_lookup_insert_eq by (by eapply lookup_lt_Some). done.
    + exists s. by rewrite list_lookup_insert_ne.
  - intros i s' Hlook Hi.
    apply close_ref_lookup in Hlook as [Hlook|(-> & _ & _ & s0 & Hs0 & Hlive)]; [eauto|].
    specialize (Hothers _ _ Hs0 Hi). unfold live in Hlive. by rewrite Hothers in Hlive.
Qed.

Lemma all_closed_snoc socks s :
  all_closed socks -> readyState s <> CLOSED -> only_handle (length socks) (socks ++ [s]).
Proof.
  intros H Hs. split.
  - exists s. split; [|done]. rewrite lookup_app_r by lia. by rewrite Nat.sub_diag.
  - intros i s' Hlook Hi. apply lookup_app_Some in Hlook as [Hlook|[Hge Hlook]]; [eauto|].
    apply list_lookup_singleton_Some in Hlook as [Hz _]. lia.
Qed.

Lemma only_handle_unique h socks i s :
  only_handle h socks -> socks !! i = Some s -> readyState s <> CLOSED -> i = h.
Proof.
  intros [_ Hothers] Hs Hopen. destruct (decide (i = h)); [done|].
  by specialize (Hothers _ _ Hs n).
Qed.

Lemma only_handle_closed h socks :
  only_handle h socks ->
  all_closed (alter (fun s => mkSocket CLOSED (seenAttempts s) (closeCode s)) h socks).
Proof.
  intros [_ Hothers] i s. destruct (decide (h = i)) as [->|Hne].
  - rewrite list_lookup_alter_eq. destruct (socks !! i); simpl; [|done]. by intros [= <-].
  - rewrite list_lookup_alter_ne by done. intros Hs. eauto.
Qed.

Lemma only_handle_opened h socks :
  only_handle h socks ->
  only_handle h (alter (fun s => mkSocket OPEN (seenAttempts s) (closeCode s)) h socks).
Proof.
  intros [(s & Hs & Hopen) Hothers]. split.
  - eexists. rewrite list_lookup_alter_eq, Hs. simpl. done.
  - intros i s' Hlook Hi. rewrite list_lookup_alter_ne in Hlook by done. eauto.
Qed.

Lemma clear_ref_length ref tms : length (clear_ref ref tms) = length tms.
Proof. destruct ref; simpl; by rewrite ?length_alter. Qed.

Lemma held_by_clear_other k ref ref' tms :
  held_by k ref tms -> held_by k ref (clear_ref ref' tms).
Proof. destruct ref'; simpl; [apply held_by_alter|done]. Qed.

(** ** The phases are kept by every event *)

Lemma idle_initial now : idle (initial now).
Proof. by repeat split. Qed.

(** No timer is pending once [connectWebSocket] has cleared what the refs
    hold, provided the refs held every pending timer. *)
Lemma teardown_clears_timers st :
  held_by Timeout (reconnectTimeoutRef st) (timers st) ->
  held_by Interval (heartbeatIntervalRef st) (timers st) ->
  let tms := clear_ref (heartbeatIntervalRef st)
               (clear_ref (reconnectTimeoutRef st) (timers st)) in
  no_active Timeout tms /\ no_active Interval tms.
Proof.
  intros HT HI. split.
  - by apply no_active_clear_ref, held_by_clear_ref.
  - by apply held_by_clear_ref, held_by_clear_other.
Qed.

Lemma consistent_held st :
  consistent st ->
  held_by Timeout (reconnectTimeoutRef st) (timers st) /\
  held_by Interval (heartbeatIntervalRef st) (timers st).
Proof.
  intros [(_ & HI & HT)|(h & _ & HT & HI & _)]; split; auto using no_active_held.
Qed.

Lemma connectWebSocket_idle (r : nat) (c : bool) (st : state) :
  idle st ->
  if c then idle (connectWebSocket r true st)
  else alive (length (sockets st)) (connectWebSocket r false st).
Proof.
  intros (Hclosed & HI & HT).
  destruct (teardown_clears_timers st HT (no_active_held _ _ _ HI)) as [HT' HI'].
  destruct (connectWebSocket_core r c st) as (Hm & Htm & Hso & Href & Hrr & Hhr & _).
  cbv zeta in *. rewrite all_closed_close_ref in Hso by done.
  destruct c.
  - unfold idle. rewrite Htm, Hso, Hrr, app_nil_r. repeat split; [done| |].
    + apply no_active_snoc; [done|]. by apply timer_is_other.
    + rewrite <- (clear_ref_length (reconnectTimeoutRef st)).
      rewrite <- (clear_ref_length (heartbeatIntervalRef st)).
      by apply held_by_snoc.
  - unfold alive, socket_state. rewrite Htm, Hso, Href, Hhr, app_nil_r.
    repeat split; try done.
    + eexists. rewrite lookup_app_r by lia. rewrite Nat.sub_diag. simpl. done.
    + intros i s Hlook Hi. apply lookup_app_Some in Hlook as [Hlook|[Hge Hlook]]; [eauto|].
      apply list_lookup_singleton_Some in Hlook as [Hz _]. lia.
    + by apply no_active_held.
Qed.

Lemma connectWebSocket_idle_consistent r c st :
  idle st -> consistent (connectWebSocket r c st).
Proof.
  intros H. pose proof (connectWebSocket_idle r c st H) as H'.
  destruct c; [by left|right; eauto].
Qed.

Lemma alive_state h st :
  alive h st -> exists rs, socket_state h st = Some rs /\ rs <> CLOSED.
Proof.
  intros ([(s & Hs & Hopen) _] & _). exists (readyState s).
  unfold socket_state. by rewrite Hs.
Qed.

Lemma alive_effect h c st : alive h st -> mounted st = true -> onlineEffect c st = st.
Proof.
  intros Halive Hm. destruct (alive_state _ _ Halive) as (rs & Hrs & Hopen).
  destruct Halive as (_ & _ & _ & _ & Href & _). unfold onlineEffect.
  rewrite (Href Hm), Hrs. destruct rs; try done; by rewrite andb_false_r.
Qed.

Lemma alive_tick v now thr h st : alive h st -> alive h (heartbeatTick v now thr st).
Proof.
  intros (Hh & HT & HI & Hq & Href & Hl).
  destruct (heartbeatTick_core v now thr st) as (Hm & Htm & Hsr & Hrr & Hhr & Hso).
  cbv zeta in *. unfold alive, socket_state. rewrite Hm, Htm, Hsr, Hhr.
  destruct Hso as [->| ->]; [done|].
  split; [by apply only_handle_close_ref|]. do 2 (split; [done|]).
  split; [|split; [done|]].
  - intros Hc. apply Hq. unfold socket_state.
    destruct (close_ref _ _ _ !! h) as [s'|] eqn:Hlook; [|done].
    apply close_ref_lookup in Hlook as [->|(_ & Hcl & _)]; [done|].
    simpl in Hc. congruence.
  - intros s' Hlook Hlive.
    apply close_ref_lookup in Hlook as [Hlook|(_ & Hcl & _)]; [eauto|].
    unfold live in Hlive. by rewrite Hcl in Hlive.
Qed.

Lemma alive_open r now h s st :
  alive h st -> sockets st !! h = Some s -> readyState s = CONNECTING ->
  alive h (onopen r now (set_readyState h OPEN st)).
Proof.
  intros (Hh & HT & HI & Hq & Href & Hl) Hs Hc.
  assert (HnoI : no_active Interval (timers st)).
  { apply Hq. unfold socket_state. by rewrite Hs, <- Hc. }
  assert (Hcur : socketRef st = Some h).
  { apply (Hl s Hs). unfold live. by rewrite Hc. }
  unfold alive, socket_state. simpl. repeat split.
  - destruct Hh as [(s0 & Hs0 & _) _]. eexists. rewrite list_lookup_alter_eq, Hs0. done.
  - intros i s' Hlook Hi. rewrite list_lookup_alter_ne in Hlook by done.
    destruct Hh as [_ Hothers]. eauto.
  - apply no_active_snoc; [done|]. by apply timer_is_other.
  - by apply held_by_snoc.
  - rewrite list_lookup_alter_eq, Hs. simpl. congruence.
  - done.
  - done.
Qed.

Lemma alive_close r code wasClean h st :
  alive h st -> idle (onclose r code wasClean (set_readyState h CLOSED st)).
Proof.
  intros (Hh & HT & HI & _).
  destruct (onclose_core r code wasClean (set_readyState h CLOSED st))
    as (_ & Hso & _ & Htm & Hrr & _).
  cbv zeta in *. unfold idle. rewrite Hso, Htm, Hrr. simpl.
  split; [by apply only_handle_closed|].
  pose proof (held_by_clear_ref _ _ _ HI) as HI'.
  pose proof (no_active_clear_ref _ (heartbeatIntervalRef st) _ HT) as HT'.
  destruct (non_retry code); rewrite ?app_nil_r; split; try done.
  - by apply no_active_held.
  - apply no_active_snoc; [done|]. by apply timer_is_other.
  - rewrite <- (clear_ref_length (heartbeatIntervalRef st)). by apply held_by_snoc.
Qed.

Lemma idle_timeout r c t st : idle st -> consistent (reconnectCallback r c (clearTimer t st)).
Proof.
  intros (Hclosed & HI & HT). apply connectWebSocket_idle_consistent.
  repeat split; simpl; [done|by apply no_active_alter|by apply held_by_alter].
Qed.

Lemma close_ref_current code h socks s' :
  close_ref code (Some h) socks !! h = Some s' -> live s' = false.
Proof.
  unfold close_ref. destruct (socks !! h) as [s|] eqn:Hs; [|congruence].
  destruct (live s) eqn:Hlive; [|congruence].
  rewrite list_lookup_insert_eq by (by eapply lookup_lt_Some). by intros [= <-].
Qed.

Lemma cleanup_consistent st :
  mounted st = true -> consistent st -> consistent (cleanup (set_mounted false st)).
Proof.
  intros Hmounted Hc. destruct (consistent_held _ Hc) as [HT HI].
  destruct (cleanup_core (set_mounted false st)) as (Hm & Htm & Hso & _ & Hrr & Hhr).
  cbv zeta in *. simpl in *.
  assert (HnoI : no_active Interval (timers (cleanup (set_mounted false st)))).
  { rewrite Htm. by apply no_active_clear_ref, held_by_clear_ref. }
  assert (HnoT : no_active Timeout (timers (cleanup (set_mounted false st)))).
  { rewrite Htm. by apply held_by_clear_ref, held_by_clear_other. }
  destruct Hc as [(Hclosed & _)|(h & Hh & _ & _ & _ & Href & _)].
  - left. unfold idle. rewrite Hso, all_closed_close_ref by done.
    split; [done|]. split; [done|]. by apply no_active_held.
  - right. exists h. unfold alive. rewrite Hso, Hm, (Href Hmounted).
    split; [by apply only_handle_close_ref|]. split; [done|].
    split; [by apply no_active_held|]. do 2 (split; [done|]).
    intros s' Hlook Hlive. by rewrite (close_ref_current _ _ _ _ Hlook) in Hlive.
Qed.

Section Phases.

Context (JSON_parse : string -> option json) (onMessage : bool).

Lemma step_consistent v ev st st' :
  consistent st -> step JSON_parse onMessage v ev st = Some st' -> consistent st'.
Proof.
  intros Hc Hstep. destruct ev; cbn [step] in Hstep.
  - (* EvStatus *)
    destruct (mounted st); simplify_eq. exact Hc.
  - (* EvEffect *)
    destruct (mounted st) eqn:Hm; simplify_eq.
    destruct Hc as [Hidle|(h & Halive)].
    + unfold onlineEffect. case_match; [|by left].
      by apply connectWebSocket_idle_consistent.
    + rewrite (alive_effect h) by done. right; eauto.
  - (* EvOpen *)
    destruct (sockets st !! id) as [s|] eqn:Hs; [|done].
    destruct (readyState s) eqn:Hrs; simplify_eq.
    destruct Hc as [(Hclosed & _)|(h & Halive)].
    + specialize (Hclosed _ _ Hs). congruence.
    + assert (id = h) as ->.
      { destruct Halive as (Hh & _). eapply only_handle_unique; eauto. congruence. }
      right. exists h. by eapply alive_open.
  - (* EvMessage *)
    destruct (socket_state id st) as [[]|]; simplify_eq.
    destruct (onmessage_core JSON_parse onMessage v d now st)
      as (Hm & Hso & Hsr & Htm & Hrr & Hhr).
    cbv zeta in *. unfold consistent, idle, alive, socket_state in *.
    by rewrite Hm, Hso, Hsr, Htm, Hrr, Hhr.
  - (* EvClose *)
    destruct (sockets st !! id) as [s|] eqn:Hs; [|done].
    assert (Hopen : readyState s <> CLOSED) by (destruct (readyState s); congruence).
    assert (st' = onclose (seenAttempts s) code wasClean (set_readyState id CLOSED st)) as ->
      by (destruct (readyState s); congruence).
    destruct Hc as [(Hclosed & _)|(h & Halive)].
    + by specialize (Hclosed _ _ Hs).
    + assert (id = h) as ->.
      { destruct Halive as (Hh & _). eapply only_handle_unique; eauto. }
      left. by apply alive_close.
  - (* EvError *)
    destruct (sockets st !! id); simplify_eq. by rewrite onerror_returns.
  - (* EvTick *)
    destruct (timers st !! t) as [tm|] eqn:Htm; [|done].
    destruct (timer_is Interval tm) eqn:Hact; simplify_eq.
    destruct Hc as [(_ & HI & _)|(h & Halive)].
    + by rewrite (HI _ _ Htm) in Hact.
    + right. exists h. by apply alive_tick.
  - (* EvTimeout *)
    destruct (timers st !! t) as [tm|] eqn:Htm; [|done].
    destruct (timer_is Timeout tm) eqn:Hact; simplify_eq.
    destruct Hc as [Hidle|(h & _ & HT & _)].
    + by apply idle_timeout.
    + by rewrite (HT _ _ Htm) in Hact.
  - (* EvUnmount *)
    destruct (mounted st) eqn:Hm; simplify_eq. by apply cleanup_consistent.
Qed.

Lemma run_consistent v evs st st' :
  consistent st -> run JSON_parse onMessage v evs st = Some st' -> consistent st'.
Proof.
  revert st. induction evs as [|ev evs IH]; intros st Hc Hrun; simpl in Hrun.
  - by simplify_eq.
  - destruct (step JSON_parse onMessage v ev st) as [st1|] eqn:Hstep; [|done].
    eapply IH; [|exact Hrun]. by eapply step_consistent.
Qed.

End Phases.

(** In a consistent state every live socket is the one [socketRef] holds. *)
Lemma consistent_live_current st i s :
  consistent st -> sockets st !! i = Some s -> live s = true -> socketRef st = Some i.
Proof.
  intros [(Hclosed & _)|(h & Hh & _ & _ & _ & _ & Hl)] Hs Hlive.
  - specialize (Hclosed _ _ Hs). unfold live in Hlive. by rewrite Hclosed in Hlive.
  - assert (i = h) as ->.
    { eapply only_handle_unique; eauto. unfold live in Hlive.
      destruct (readyState s); congruence. }
    eauto.
Qed.

Lemma consistent_one_open st i j si sj :
  consistent st ->
  sockets st !! i = Some si -> sockets st !! j = Some sj ->
  readyState si = OPEN -> readyState sj = OPEN -> i = j.
Proof.
  intros Hc Hi Hj Hoi Hoj.
  assert (Hli : live si = true) by (unfold live; by rewrite Hoi).
  assert (Hlj : live sj = true) by (unfold live; by rewrite Hoj).
  pose proof (consistent_live_current _ _ _ Hc Hi Hli).
  pose proof (consistent_live_current _ _ _ Hc Hj Hlj). congruence.
Qed.

(** Once the current handle is closed, no socket is live, provided every live
    socket was the current one. *)
Lemma close_ref_none_live code ref socks :
  (forall i s, socks !! i = Some s -> live s = true -> ref = Some i) ->
  forall i s', close_ref code ref socks !! i = Some s' -> live s' = false.
Proof.
  intros Hcur i s' Hlook. destruct (live s') eqn:Hlive; [exfalso|done].
  pose proof Hlook as Hlook'.
  apply close_ref_lookup in Hlook as [Hlook|(_ & Hcl & _)].
  - rewrite (Hcur _ _ Hlook Hlive) in Hlook'.
    by rewrite (close_ref_current _ _ _ _ Hlook') in Hlive.
  - unfold live in Hlive. by rewrite Hcl in Hlive.
Qed.

Section Supersede.

Context (JSON_parse : string -> option json) (onMessage : bool).

(** C6. In every state the component can reach, in either version, at most
    one handle is [OPEN].  A connection attempt started there
    ([connectWebSocket] whose constructor returns) does, in this order:
    clear the reconnect timeout and the heartbeat interval the refs hold,
    close the handle [socketRef] holds with code 4000 if it is [OPEN] or
    [CONNECTING], and only then create the new handle.  Afterwards both refs
    are empty and no timer at all is pending, the previous handle, if it was
    live, is [CLOSING] with code 4000, the new handle is [CONNECTING] and
    current, and every other handle is [CLOSING] or [CLOSED]. *)
Theorem new_attempt_closes_previous_first (v : variant) (mountedAt : Z)
    (evs : list event) (st : state) (r : nat) :
  run JSON_parse onMessage v evs (initial mountedAt) = Some st ->
  (forall i j si sj, sockets st !! i = Some si -> sockets st !! j = Some sj ->
     readyState si = OPEN -> readyState sj = OPEN -> i = j) /\
  let st' := connectWebSocket r false st in
  let new := length (sockets st) in
  trace st' = trace st ++ teardown_effects st ++ [ENewSocket new] /\
  reconnectTimeoutRef st' = None /\ heartbeatIntervalRef st' = None /\
  (forall t tm, timers st' !! t = Some tm -> active tm = false) /\
  (forall id s, socketRef st = Some id -> sockets st !! id = Some s -> live s = true ->
     sockets st' !! id = Some (mkSocket CLOSING (seenAttempts s) (Some 4000))) /\
  socketRef st' = Some new /\
  sockets st' !! new = Some (mkSocket CONNECTING r None) /\
  (forall i s', sockets st' !! i = Some s' -> i <> new -> live s' = false) /\
  (forall i j si sj, sockets st' !! i = Some si -> sockets st' !! j = Some sj ->
     readyState si = OPEN -> readyState sj = OPEN -> i = j).
Proof.
  intros Hrun.
  assert (Hc : consistent st).
  { eapply run_consistent; [|exact Hrun]. left. apply idle_initial. }
  split; [intros i j si sj; by apply consistent_one_open|].
  destruct (connectWebSocket_core r false st) as (_ & Htm & Hso & Href & Hrr & Hhr & Htr).
  cbv zeta in *. rewrite app_nil_r in Htm.
  destruct (consistent_held _ Hc) as [HT HI].
  destruct (teardown_clears_timers st HT HI) as [HT' HI'].
  assert (Hothers : forall i s', sockets (connectWebSocket r false st) !! i = Some s' ->
                                 i <> length (sockets st) -> live s' = false).
  { intros i s' Hlook Hi. rewrite Hso in Hlook.
    apply lookup_app_Some in Hlook as [Hlook|[Hge Hlook]].
    - eapply close_ref_none_live; [|exact Hlook].
      intros k sk. by apply consistent_live_current.
    - apply list_lookup_singleton_Some in Hlook as [Hz _].
      rewrite close_ref_length in *. lia. }
  repeat split; try done.
  - intros t tm. rewrite Htm. by apply no_active_inactive.
  - intros id s Hid Hs Hlive. rewrite Hso, Hid. unfold close_ref. rewrite Hs, Hlive.
    rewrite lookup_app_l by (rewrite length_insert; by eapply lookup_lt_Some).
    apply list_lookup_insert_eq. by eapply lookup_lt_Some.
  - rewrite Hso, lookup_app_r by (by rewrite close_ref_length).
    by rewrite close_ref_length, Nat.sub_diag.
  - intros i j si sj Hi Hj Hoi Hoj.
    assert (forall k sk, sockets (connectWebSocket r false st) !! k = Some sk ->
                         readyState sk = OPEN -> k = length (sockets st)) as Hnew.
    { intros k sk Hk Hok. destruct (decide (k = length (sockets st))); [done|].
      specialize (Hothers _ _ Hk n). unfold live in Hothers. by rewrite Hok in Hothers. }
    rewrite (Hnew _ _ Hi Hoi), (Hnew _ _ Hj Hoj). done.
Qed.

End Supersede.

(** ** The retry counter and the delay *)

Lemma backoff_cap r : backoff r <= 30000.
Proof. unfold backoff. lia. Qed.

Lemma backoff_floor r : 1000 <= backoff r.
Proof.
  unfold backoff. assert (1 <= 2 ^ Z.of_nat r) by (apply Z.pow_le_mono_r with (b := 0); lia).
  lia.
Qed.

Lemma backoff_mono r r' : (r <= r')%nat -> backoff r <= backoff r'.
Proof.
  intros Hle. unfold backoff.
  assert (2 ^ Z.of_nat r <= 2 ^ Z.of_nat r') by (apply Z.pow_le_mono_r; lia).
  lia.
Qed.

Lemma backoff_values :
  map backoff [0; 1; 2; 3; 4; 5; 6]%nat = [1000; 2000; 4000; 8000; 16000; 30000; 30000].
Proof. reflexivity. Qed.

Section Attempts.

Context (JSON_parse : string -> option json) (onMessage : bool).

Lemma reconnectAttempts_connectWebSocket r c st :
  reconnectAttempts (connectWebSocket r c st) = reconnectAttempts st.
Proof. frame. Qed.

Lemma reconnectAttempts_heartbeatTick v now thr st :
  reconnectAttempts (heartbeatTick v now thr st) = reconnectAttempts st.
Proof. frame. Qed.

Lemma reconnectAttempts_cleanup st : reconnectAttempts (cleanup st) = reconnectAttempts st.
Proof. frame. Qed.

Lemma reconnectAttempts_onclose r code wc st :
  reconnectAttempts (onclose r code wc st) = reconnectAttempts st.
Proof. frame. Qed.

Lemma reconnectAttempts_onmessage v d now st :
  reconnectAttempts (onmessage JSON_parse onMessage v d now st) = reconnectAttempts st.
Proof.
  destruct v; simpl; unfold onmessage_tolerant, onmessage_strict, notify, record;
    repeat (case_match; simplify_eq/=; try done).
Qed.

(** [reconnectAttempts] is set to 0 by an open event, goes up by one when a
    reconnect timeout fires, and is left alone by every other event. *)
Lemma reconnectAttempts_step v ev st st' :
  step JSON_parse onMessage v ev st = Some st' ->
  match ev with
  | EvOpen _ _ => reconnectAttempts st' = 0%nat
  | EvTimeout _ _ => reconnectAttempts st' = S (reconnectAttempts st)
  | _ => reconnectAttempts st' = reconnectAttempts st
  end.
Proof.
  destruct ev; cbn [step]; intros Hstep; repeat (case_match; simplify_eq; try done).
  - unfold onlineEffect. case_match; [apply reconnectAttempts_connectWebSocket|done].
  - apply reconnectAttempts_onmessage.
  - by rewrite reconnectAttempts_onclose.
  - by rewrite reconnectAttempts_onclose.
  - by rewrite reconnectAttempts_onclose.
  - by rewrite onerror_returns.
  - by rewrite reconnectAttempts_heartbeatTick.
  - unfold reconnectCallback. by rewrite reconnectAttempts_connectWebSocket.
  - by rewrite reconnectAttempts_cleanup.
Qed.

(** A binary frame changes nothing either: [Tolerant] finds no [type] it
    knows on the [Blob], [Strict] fails to parse its string form. *)
Lemma binary_frame_ignored v now st :
  JSON_parse "[object Blob]" = None ->
  onmessage JSON_parse onMessage v Binary now st = st.
Proof.
  intros Hparse. destruct v; simpl.
  - reflexivity.
  - unfold onmessage_strict. by rewrite Hparse.
Qed.

End Attempts.

(** ** Runs without a retry *)

Lemma scheduled_heartbeatTick v now thr st :
  scheduled (trace (heartbeatTick v now thr st)) = scheduled (trace st).
Proof.
  unfold_callbacks.
  destruct st as [msgs ic ra sref rref href lp on mt socks tms tr]; simpl.
  repeat (case_match; simplify_eq/=); rewrite ?scheduled_snoc, ?app_nil_r; done.
Qed.

Lemma scheduled_cleanup st : scheduled (trace (cleanup st)) = scheduled (trace st).
Proof.
  unfold_callbacks.
  destruct st as [msgs ic ra sref rref href lp on mt socks tms tr]; simpl.
  repeat (case_match; simplify_eq/=); rewrite ?scheduled_snoc, ?app_nil_r; done.
Qed.

Lemma scheduled_onopen r now st : scheduled (trace (onopen r now st)) = scheduled (trace st).
Proof. unfold onopen. simpl. by rewrite !scheduled_snoc, !app_nil_r. Qed.

Lemma scheduled_onmessage JSON_parse onMessage v d now st :
  scheduled (trace (onmessage JSON_parse onMessage v d now st)) = scheduled (trace st).
Proof.
  destruct v; simpl; unfold onmessage_tolerant, onmessage_strict, notify, record;
    repeat (case_match; simplify_eq/=; try done); by rewrite scheduled_snoc, app_nil_r.
Qed.

Lemma clear_ref_active ref tms t tm :
  clear_ref ref tms !! t = Some tm -> active tm = true -> tms !! t = Some tm.
Proof.
  destruct ref as [t0|]; simpl; [|done].
  destruct (decide (t0 = t)) as [->|Hne].
  - rewrite list_lookup_alter_eq. destruct (tms !! t); simpl; [|done]. by intros [= <-].
  - by rewrite list_lookup_alter_ne.
Qed.

Lemma timer_is_active k tm : timer_is k tm = true -> active tm = true.
Proof. unfold timer_is. by destruct (kind tm), k. Qed.

Section Quiet.

Context (JSON_parse : string -> option json) (onMessage : bool).

Lemma step_quiet v ev st st' :
  quiet_event ev = true ->
  step JSON_parse onMessage v ev st = Some st' ->
  scheduled (trace st') = scheduled (trace st) /\
  (forall t tm, timers st' !! t = Some tm -> timer_is Timeout tm = true ->
                timers st !! t = Some tm).
Proof.
  intros Hq Hstep. destruct ev; cbn [step quiet_event] in *.
  - destruct (mounted st); by simplify_eq.
  - destruct (mounted st); simplify_eq. apply negb_true_iff in Hq as ->.
    unfold onlineEffect. case_match; [|done].
    destruct (connectWebSocket_created (reconnectAttempts st) st) as (_ & _ & _ & _ & _ & _ & _ & _ & Hs).
    destruct (connectWebSocket_core (reconnectAttempts st) false st) as (_ & Htm & _).
    cbv zeta in *. split; [done|]. intros t tm. rewrite Htm, app_nil_r. intros Hl Ha.
    apply timer_is_active in Ha. eauto using clear_ref_active.
  - destruct (sockets st !! id) as [s|]; [|done].
    destruct (readyState s); simplify_eq.
    split; [by rewrite scheduled_onopen|].
    intros t tm Hl Ha. simpl in Hl.
    apply lookup_app_Some in Hl as [Hl|[_ Hl]]; [done|].
    apply list_lookup_singleton_Some in Hl as [_ <-]. done.
  - destruct (socket_state id st) as [[]|]; simplify_eq.
    split; [apply scheduled_onmessage|].
    destruct (onmessage_core JSON_parse onMessage v d now st) as (_ & _ & _ & Htm & _).
    cbv zeta in Htm. by rewrite Htm.
  - pose proof (close_step_non_retry JSON_parse onMessage v id code wasClean st st' Hq) as H.
    cbn [step] in H. destruct (H Hstep) as (_ & _ & Ht & Hs).
    split; [done|]. intros t tm Hl Ha. apply timer_is_active in Ha. eauto.
  - destruct (sockets st !! id); simplify_eq. by rewrite onerror_returns.
  - destruct (timers st !! t); [|done]. destruct (timer_is Interval t0); simplify_eq.
    split; [apply scheduled_heartbeatTick|].
    destruct (heartbeatTick_core v now send_throws st) as (_ & Htm & _).
    cbv zeta in Htm. by rewrite Htm.
  - destruct (timers st !! t) as [tm0|]; [|done].
    destruct (timer_is Timeout tm0); simplify_eq. apply negb_true_iff in Hq as ->.
    unfold reconnectCallback.
    set (st1 := set_reconnectAttempts _ _).
    destruct (connectWebSocket_created (timerAttempts tm0) st1) as (_ & _ & _ & _ & _ & _ & _ & _ & Hs).
    destruct (connectWebSocket_core (timerAttempts tm0) false st1) as (_ & Htm & _).
    cbv zeta in *. split; [done|]. intros t' tm. rewrite Htm, app_nil_r. intros Hl Ha.
    apply timer_is_active in Ha.
    apply clear_ref_active in Hl; [|done]. apply clear_ref_active in Hl; [|done].
    by apply (clearTimer_active t st).
  - destruct (mounted st); simplify_eq.
    split; [by rewrite scheduled_cleanup|].
    destruct (cleanup_core (set_mounted false st)) as (_ & Htm & _).
    cbv zeta in Htm. intros t tm. rewrite Htm. intros Hl Ha.
    apply timer_is_active in Ha. simpl in Hl. eauto using clear_ref_active.
Qed.

Lemma run_quiet v evs st st' :
  forallb quiet_event evs = true ->
  run JSON_parse onMessage v evs st = Some st' ->
  scheduled (trace st') = scheduled (trace st) /\
  (forall t tm, timers st' !! t = Some tm -> timer_is Timeout tm = true ->
                timers st !! t = Some tm).
Proof.
  revert st. induction evs as [|ev evs IH]; intros st Hall Hrun; simpl in *.
  - by simplify_eq.
  - apply andb_prop in Hall as [Hev Hall].
    destruct (step JSON_parse onMessage v ev st) as [st1|] eqn:Hstep; [|done].
    destruct (step_quiet _ _ _ _ Hev Hstep) as [Hs1 Ht1].
    destruct (IH st1 Hall Hrun) as [Hs2 Ht2].
    split; [congruence|eauto].
Qed.

Lemma run_non_retry_closes v evs st st' :
  forallb non_retry_close evs = true ->
  run JSON_parse onMessage v evs st = Some st' ->
  nothing_scheduled st st'.
Proof.
  revert st. induction evs as [|ev evs IH]; intros st Hall Hrun.
  - injection Hrun as <-. apply nothing_scheduled_refl.
  - simpl in Hall. apply andb_prop in Hall as [Hev Hall].
    cbn [run] in Hrun.
    destruct (step JSON_parse onMessage v ev st) as [st1|] eqn:Hstep; [|done].
    apply nothing_scheduled_trans with st1; [|by apply IH].
    destruct ev; try discriminate. simpl in Hev.
    by eapply close_step_non_retry.
Qed.

(** C2. Take any run of the component, in either version, from any state, in
    which every close event carries a non-retry code (1000, 1005 or 4000) and
    every [new WebSocket] returns; other events may come in between.  No
    reconnect timer is scheduled in it: the trace holds no new [setTimeout],
    and a reconnect timeout pending at the end was pending at the start.
    When the run is a sequence of such close events alone, the reconnect ref
    is also what it was and no timer of any kind was created. *)
Theorem non_retry_closes_schedule_nothing (v : variant) (evs : list event)
    (st st' : state) :
  forallb quiet_event evs = true ->
  run JSON_parse onMessage v evs st = Some st' ->
  scheduled (trace st') = scheduled (trace st) /\
  (forall t tm, timers st' !! t = Some tm -> timer_is Timeout tm = true ->
                timers st !! t = Some tm) /\
  (forallb non_retry_close evs = true ->
   reconnectTimeoutRef st' = reconnectTimeoutRef st /\
   length (timers st') = length (timers st)).
Proof.
  intros Hquiet Hrun.
  destruct (run_quiet v evs st st' Hquiet Hrun) as [Hs Ht].
  split; [exact Hs|]. split; [exact Ht|].
  intros Hcloses.
  destruct (run_non_retry_closes v evs st st' Hcloses Hrun) as (Hr & Hl & _).
  by split.
Qed.

End Quiet.

(** ** [Tolerant] forwards [log] messages only *)

Section Forwarding.

Context (JSON_parse : string -> option json).

Lemma forwarded_snoc tr e :
  forwarded (tr ++ [e]) = forwarded tr ++ match e with EObserver m => [m] | _ => [] end.
Proof. unfold forwarded. rewrite omap_app. by destruct e. Qed.

(** C4, on the code.  With an observer registered, [Tolerant] receives an
    [order] message: the observer is not called, whatever the order holds,
    and the connection is left as it was.  The message is put at the head of
    the history when the text of its toast can be built, as for the order of
    the scenario, and is dropped when building it raises.  [Strict] records
    the same message and calls the observer once with it. *)
Theorem tolerant_order_is_not_forwarded (raw : string) (fields : list (string * json))
    (now : Z) (st : state) :
  JSON_parse raw = Some (JObj fields) ->
  assoc "type" fields = Some (JStr "order") ->
  let m := MJson (JObj fields) in
  let st' := onmessage JSON_parse true Tolerant (Text raw) now st in
  let st'' := onmessage JSON_parse true Strict (Text raw) now st in
  messages st' =
    (if order_text_throws m then messages st else pushMessage m (messages st)) /\
  sockets st' = sockets st /\ timers st' = timers st /\
  trace st' = trace st /\
  forwarded (trace st') = forwarded (trace st) /\
  messages st'' = pushMessage m (messages st) /\
  forwarded (trace st'') = forwarded (trace st) ++ [m].
Proof.
  intros Hparse Hty m st' st''.
  assert (Hst' : st' = if order_text_throws m then st else record m st).
  { subst st'. by rewrite (tolerant_by_type JSON_parse true raw fields "order"). }
  assert (Hst'' : st'' = notify true m (record m st)).
  { subst st''.
    apply (strict_records_and_forwards JSON_parse true raw (JObj fields)
             (Some (JStr "order"))); simpl; try done.
    by rewrite Hty. }
  rewrite Hst', Hst''.
  destruct (order_text_throws m); repeat split; simpl; by rewrite ?forwarded_snoc.
Qed.

End Forwarding.

(** ** The prober *)

Section Probe.

Import Prober.

Lemma http_error_404_table :
  forallb (fun n => Bool.eqb (includes "404" (http_error (Z.of_nat n))) (n =? 404)%nat)
    (seq 0 1000) = true.
Proof. vm_compute. reflexivity. Qed.

(** Among the statuses a response can carry, the message of the thrown error
    contains 404 exactly for status 404. *)
Lemma http_error_404 (status : Z) :
  0 <= status < 1000 -> includes "404" (http_error status) = (status =? 404).
Proof.
  intros Hrange.
  pose proof (proj1 (forallb_forall _ _) http_error_404_table (Z.to_nat status)) as H.
  assert (Hin : In (Z.to_nat status) (seq 0 1000)) by (apply in_seq; lia).
  apply H in Hin. cbv beta in Hin. rewrite Z2Nat.id in Hin by lia.
  apply Bool.eqb_prop in Hin. rewrite Hin.
  destruct (Z.eqb_spec status 404) as [->|Hne]; [done|].
  apply Nat.eqb_neq. lia.
Qed.

(** [checkStatus] settles normally whatever [fetch] yields. *)
Lemma checkStatus_never_throws r now1 now2 h :
  exists b, fst (checkStatus r now1 now2 h) = Normal b.
Proof.
  unfold checkStatus, checkStatus_try, checkStatus_catch.
  destruct r as [msg|status [j|msg]]; simpl; [eauto| |].
  - destruct (ok status); simpl; eauto.
  - destruct (ok status); simpl; eauto.
Qed.

(** C9. When the request fails (the promise of [fetch] rejects) or the
    response is not a success, [checkStatus] does not throw: its promise
    resolves with the snapshot [{status: 'offline', isOnline: false, message}]
    which is also what it publishes, and [message] is the not-found text when
    the error message contains 404 and the connection-error text otherwise.
    For a response this means: not-found for status 404, connection-error
    for every other status that is not a success. *)
Theorem probe_failure_is_recovered (r : fetch_result) (msg now1 now2 : string) (h : hook) :
  failure r = Some msg ->
  let snapshot :=
    ErrorStatus (if includes "404" msg then NOT_FOUND else CONNECTION_ERROR) now1 in
  checkStatus r now1 now2 h = (Normal snapshot, mkHook (Some snapshot) false (lastChecked h)) /\
  status_of snapshot = Some (JStr "offline") /\
  isOnline_of snapshot = false /\
  message_of snapshot
    = Some (JStr (if includes "404" msg then NOT_FOUND else CONNECTION_ERROR)) /\
  (forall status b, r = Response status b -> 0 <= status < 1000 ->
     message_of snapshot = Some (JStr (if status =? 404 then NOT_FOUND else CONNECTION_ERROR))).
Proof.
  intros Hfail snapshot.
  split; [|repeat split].
  - unfold checkStatus, checkStatus_try, checkStatus_catch.
    destruct r as [m|status b]; simpl in *.
    + by simplify_eq.
    + destruct (ok status); simplify_eq/=. done.
  - intros status b -> Hrange. unfold failure in Hfail.
    destruct (ok status); [discriminate|].
    assert (msg = http_error status) as -> by congruence.
    subst snapshot. cbn [message_of]. by rewrite http_error_404.
Qed.

End Probe.

(** * Further properties of the connection *)

(** ** One timer of each kind, and when it runs *)

Section Timers.

Context (JSON_parse : string -> option json) (onMessage : bool).

Lemma reachable_consistent v mountedAt evs st :
  run JSON_parse onMessage v evs (initial mountedAt) = Some st -> consistent st.
Proof. intros Hrun. eapply run_consistent; [|exact Hrun]. left. apply idle_initial. Qed.

(** In every reachable state of either version at most one reconnect timeout
    and at most one heartbeat interval is pending, and the pending one is the
    timer its ref holds: whatever is pending can be cancelled through the
    ref. *)
Theorem one_pending_timer_per_kind (v : variant) (mountedAt : Z) (evs : list event)
    (st : state) :
  run JSON_parse onMessage v evs (initial mountedAt) = Some st ->
  forall k t1 t2 tm1 tm2,
    timers st !! t1 = Some tm1 -> timers st !! t2 = Some tm2 ->
    timer_is k tm1 = true -> timer_is k tm2 = true ->
    t1 = t2 /\ ref_of k st = Some t1.
Proof.
  intros Hrun k t1 t2 tm1 tm2 H1 H2 Ha1 Ha2.
  destruct (consistent_held _ (reachable_consistent _ _ _ _ Hrun)) as [HT HI].
  assert (Href : forall t tm, timers st !! t = Some tm -> timer_is k tm = true ->
                              ref_of k st = Some t).
  { destruct k; simpl; [apply HT|apply HI]. }
  pose proof (Href _ _ H1 Ha1) as E1. pose proof (Href _ _ H2 Ha2) as E2.
  split; [congruence|done].
Qed.

(** In every reachable state of either version at most one socket is not
    [CLOSED].  A reconnect timeout is pending only while every socket is
    [CLOSED]; a heartbeat interval runs only while that one socket is [OPEN]
    or [CLOSING], never while it is still [CONNECTING]. *)
Theorem timers_follow_the_handle (v : variant) (mountedAt : Z) (evs : list event)
    (st : state) :
  run JSON_parse onMessage v evs (initial mountedAt) = Some st ->
  (forall i j si sj, sockets st !! i = Some si -> sockets st !! j = Some sj ->
     readyState si <> CLOSED -> readyState sj <> CLOSED -> i = j) /\
  (forall t tm, timers st !! t = Some tm -> timer_is Timeout tm = true ->
     all_closed (sockets st)) /\
  (forall t tm, timers st !! t = Some tm -> timer_is Interval tm = true ->
     exists h s, sockets st !! h = Some s /\
                 (readyState s = OPEN \/ readyState s = CLOSING)).
Proof.
  intros Hrun.
  destruct (reachable_consistent _ _ _ _ Hrun)
    as [(Hclosed & HI & HT)|(h & Hh & HT & HI & Hq & _)].
  - repeat split.
    + intros i j si sj Hi _ Hoi. by specialize (Hclosed _ _ Hi).
    + done.
    + intros t tm Hl Ha. by rewrite (HI _ _ Hl) in Ha.
  - repeat split.
    + intros i j si sj Hi Hj Hoi Hoj.
      rewrite (only_handle_unique _ _ _ _ Hh Hi Hoi).
      by rewrite (only_handle_unique _ _ _ _ Hh Hj Hoj).
    + intros t tm Hl Ha. by rewrite (HT _ _ Hl) in Ha.
    + intros t tm Hl Ha. destruct Hh as [(s & Hs & Hopen) _].
      exists h, s. split; [done|].
      destruct (readyState s) eqn:Hrs; auto; [|done].
      assert (Hc : socket_state h st = Some CONNECTING)
        by (unfold socket_state; by rewrite Hs, <- Hrs).
      by rewrite (Hq Hc _ _ Hl) in Ha.
Qed.

End Timers.

(** ** Disposal *)

Section Disposal.

Context (JSON_parse : string -> option json) (onMessage : bool).

(** After the cleanup no socket is live, both timer refs and [socketRef] are
    empty and nothing is pending. *)
Lemma cleanup_quiesces st :
  consistent st -> mounted st = true ->
  let st1 := cleanup (set_mounted false st) in
  mounted st1 = false /\ socketRef st1 = None /\
  reconnectTimeoutRef st1 = None /\ heartbeatIntervalRef st1 = None /\
  no_timer st1 /\
  (forall i s, sockets st1 !! i = Some s -> live s = false) /\
  (forall id s, socketRef st = Some id -> sockets st !! id = Some s -> live s = true ->
     sockets st1 !! id = Some (mkSocket CLOSING (seenAttempts s) (Some 1000))).
Proof.
  intros Hc Hm.
  destruct (cleanup_core (set_mounted false st)) as (Hm1 & Htm & Hso & Hsr & Hrr & Hhr).
  destruct (consistent_held _ Hc) as [HT HI].
  cbv zeta in *. simpl in *. repeat split; try done.
  - intros t tm. rewrite Htm. apply no_active_inactive.
    + by apply held_by_clear_ref, held_by_clear_other.
    + by apply no_active_clear_ref, held_by_clear_ref.
  - intros i s. rewrite Hso. apply close_ref_none_live.
    intros k sk. by apply consistent_live_current.
  - intros id s Hid Hs Hlive. rewrite Hso, Hid. unfold close_ref. rewrite Hs, Hlive.
    apply list_lookup_insert_eq. by eapply lookup_lt_Some.
Qed.

(** Unmounted with no reconnect timeout pending: quiet events keep it so and
    create no socket. *)
Lemma disposed_step v ev st st' :
  mounted st = false -> no_active Timeout (timers st) ->
  quiet_event ev = true ->
  step JSON_parse onMessage v ev st = Some st' ->
  mounted st' = false /\ no_active Timeout (timers st') /\
  length (sockets st') = length (sockets st).
Proof.
  intros Hm HT Hq Hstep.
  assert (HT' : no_active Timeout (timers st')).
  { destruct (step_quiet JSON_parse onMessage v ev st st' Hq Hstep) as [_ Hold].
    intros t tm Hl. destruct (timer_is Timeout tm) eqn:Ha; [|done].
    specialize (Hold _ _ Hl Ha). by rewrite (HT _ _ Hold) in Ha. }
  destruct ev; cbn [step quiet_event] in *.
  - by rewrite Hm in Hstep.
  - by rewrite Hm in Hstep.
  - destruct (sockets st !! id) as [s|]; [|done].
    destruct (readyState s); simplify_eq. simpl. by rewrite length_alter.
  - destruct (socket_state id st) as [[]|]; simplify_eq.
    destruct (onmessage_core JSON_parse onMessage v d now st) as (Hm' & Hso & _).
    cbv zeta in *. by rewrite Hm', Hso.
  - destruct (sockets st !! id) as [s|]; [|done].
    assert (st' = onclose (seenAttempts s) code wasClean (set_readyState id CLOSED st)) as ->
      by (destruct (readyState s); congruence).
    destruct (onclose_core (seenAttempts s) code wasClean (set_readyState id CLOSED st))
      as (Hm' & Hso & _).
    cbv zeta in *. rewrite Hm', Hso. simpl. by rewrite length_alter.
  - destruct (sockets st !! id); simplify_eq. by rewrite onerror_returns.
  - destruct (timers st !! t); [|done]. destruct (timer_is Interval t0); simplify_eq.
    destruct (heartbeatTick_core v now send_throws st) as (Hm' & _ & _ & _ & _ & Hso).
    cbv zeta in *. rewrite Hm'. repeat split; try done.
    destruct Hso as [->| ->]; [done|apply close_ref_length].
  - destruct (timers st !! t) as [tm|] eqn:Hl; [|done].
    destruct (timer_is Timeout tm) eqn:Ha; [|done]. by rewrite (HT _ _ Hl) in Ha.
  - by rewrite Hm in Hstep.
Qed.

Lemma disposed_run v evs st st' :
  mounted st = false -> no_active Timeout (timers st) ->
  forallb quiet_event evs = true ->
  run JSON_parse onMessage v evs st = Some st' ->
  mounted st' = false /\ no_active Timeout (timers st') /\
  length (sockets st') = length (sockets st).
Proof.
  revert st. induction evs as [|ev evs IH]; intros st Hm HT Hall Hrun; simpl in *.
  - by simplify_eq.
  - apply andb_prop in Hall as [Hev Hall].
    destruct (step JSON_parse onMessage v ev st) as [st1|] eqn:Hstep; [|done].
    destruct (disposed_step _ _ _ _ Hm HT Hev Hstep) as (Hm1 & HT1 & Hl1).
    destruct (IH st1 Hm1 HT1 Hall Hrun) as (Hm2 & HT2 & Hl2).
    repeat split; [done|done|congruence].
Qed.

(** Unmounting in any reachable state of either version clears both timer
    refs and [socketRef], leaves no timer pending and no socket live (a live
    current handle is closed with code 1000).  From then on, as long as every
    close event carries a non-retry code, no socket is created and no
    reconnect is scheduled, whatever else the host delivers. *)
Theorem unmount_is_final (v : variant) (mountedAt : Z) (evs : list event)
    (st st1 : state) :
  run JSON_parse onMessage v evs (initial mountedAt) = Some st ->
  step JSON_parse onMessage v EvUnmount st = Some st1 ->
  (socketRef st1 = None /\ reconnectTimeoutRef st1 = None /\
   heartbeatIntervalRef st1 = None /\ no_timer st1 /\
   (forall i s, sockets st1 !! i = Some s -> live s = false) /\
   (forall id s, socketRef st = Some id -> sockets st !! id = Some s -> live s = true ->
      sockets st1 !! id = Some (mkSocket CLOSING (seenAttempts s) (Some 1000)))) /\
  forall later st2,
    forallb quiet_event later = true ->
    run JSON_parse onMessage v later st1 = Some st2 ->
    length (sockets st2) = length (sockets st1) /\
    scheduled (trace st2) = scheduled (trace st1) /\
    (forall t tm, timers st2 !! t = Some tm -> timer_is Timeout tm = false).
Proof.
  intros Hrun Hstep. cbn [step] in Hstep.
  destruct (mounted st) eqn:Hm; simplify_eq.
  assert (Hc : consistent st).
  { eapply run_consistent; [|exact Hrun]. left. apply idle_initial. }
  destruct (cleanup_quiesces st Hc Hm) as (Hm1 & Hsr & Hrr & Hhr & Hno & Hlive & Hcur).
  cbv zeta in *. split; [done|].
  intros later st2 Hq Hlater.
  assert (HT : no_active Timeout (timers (cleanup (set_mounted false st)))).
  { intros t tm Hl. unfold timer_is. rewrite (Hno _ _ Hl). by destruct (kind tm). }
  destruct (disposed_run v later _ st2 Hm1 HT Hq Hlater) as (_ & HT2 & Hlen).
  split; [done|]. split; [|done].
  by destruct (run_quiet JSON_parse onMessage v later _ st2 Hq Hlater).
Qed.

(** The cleanup cannot take back a retry.  If, after the unmount, the close
    event of a socket carries a retry code, [onclose] still schedules a
    reconnect, and when that timer fires a new socket is created although
    the component is gone. *)
Theorem retry_survives_unmount (v : variant) (id : nat) (s : socket) (code : Z)
    (wasClean : bool) (st : state) :
  mounted st = false ->
  sockets st !! id = Some s -> readyState s <> CLOSED -> non_retry code = false ->
  exists st1 st2,
    step JSON_parse onMessage v (EvClose id code wasClean) st = Some st1 /\
    step JSON_parse onMessage v (EvTimeout (length (timers st)) false) st1 = Some st2 /\
    mounted st2 = false /\
    socketRef st2 = Some (length (sockets st)) /\
    sockets st2 !! length (sockets st) = Some (mkSocket CONNECTING (seenAttempts s) None).
Proof.
  intros Hm Hs Hrs Hcode.
  destruct (close_step_retry JSON_parse onMessage v id s code wasClean st Hs Hrs Hcode)
    as (st1 & Hstep1 & _ & _ & Htm & Hlen1 & _).
  assert (Hm1 : mounted st1 = false).
  { cbn [step] in Hstep1. rewrite Hs in Hstep1.
    assert (st1 = onclose (seenAttempts s) code wasClean (set_readyState id CLOSED st)) as ->
      by (destruct (readyState s); congruence).
    destruct (onclose_core (seenAttempts s) code wasClean (set_readyState id CLOSED st))
      as (Hm' & _). cbv zeta in Hm'. by rewrite Hm'. }
  set (st1' := set_reconnectAttempts (S (reconnectAttempts (clearTimer (length (timers st)) st1)))
                 (clearTimer (length (timers st)) st1)).
  destruct (connectWebSocket_core (seenAttempts s) false st1') as (Cm & _).
  destruct (connectWebSocket_created (seenAttempts s) st1') as (Cref & Cnew & _).
  cbv zeta in *.
  assert (Hlen' : length (sockets st1') = length (sockets st)) by (by rewrite <- Hlen1).
  rewrite Hlen' in Cref, Cnew.
  exists st1, (connectWebSocket (seenAttempts s) false st1').
  repeat split; try done.
  - simpl. rewrite Htm. simpl. reflexivity.
  - by rewrite Cm.
Qed.

End Disposal.

(** ** What reaches the history and the observer *)

Section Observed.

Context (JSON_parse : string -> option json) (onMessage : bool).

(** What one message does to the history and to the list of forwarded
    messages, in [Tolerant]. *)
Lemma onmessage_tolerant_observed d now st :
  let st' := onmessage JSON_parse onMessage Tolerant d now st in
  (messages st' = messages st /\ forwarded (trace st') = forwarded (trace st)) \/
  exists m, displayable m = true /\ heartbeat_reply m = false /\
            messages st' = pushMessage m (messages st) /\
            (forwarded (trace st') = forwarded (trace st) \/
             (is_log m = true /\ forwarded (trace st') = forwarded (trace st) ++ [m])).
Proof.
  cbv zeta. rewrite onmessage_tolerant_decision. cbv zeta.
  set (m := received JSON_parse d).
  destruct (heartbeat_reply m) eqn:Hh; [by left|].
  destruct (displayable m) eqn:Hd; [|by left].
  right. exists m. do 2 (split; [done|]).
  destruct (is_log m) eqn:Hl; [|by split; [|left]].
  unfold notify. destruct onMessage; simpl.
  - split; [done|]. right. split; [done|]. by rewrite forwarded_snoc.
  - split; [done|]. by left.
Qed.

(** The same for [Strict]. *)
Lemma onmessage_strict_observed d now st :
  let st' := onmessage JSON_parse onMessage Strict d now st in
  (messages st' = messages st /\ forwarded (trace st') = forwarded (trace st)) \/
  exists m, heartbeat_reply m = false /\
            messages st' = pushMessage m (messages st) /\
            forwarded (trace st') = forwarded (trace st) ++ (if onMessage then [m] else []).
Proof.
  cbn [onmessage]. unfold onmessage_strict. cbv zeta.
  destruct (JSON_parse _) as [j|]; [|by left].
  destruct (get_prop (MJson j) "type") as [ty|] eqn:Hty; [|by left].
  destruct (is_str ty "pong" || is_str ty "connection") eqn:Hh; [by left|].
  right. exists (MJson j). unfold heartbeat_reply. rewrite Hty.
  split; [done|]. unfold notify. destruct onMessage; simpl.
  - split; [done|]. by rewrite forwarded_snoc.
  - split; [done|]. by rewrite app_nil_r.
Qed.

Lemma forwarded_connectWebSocket r c st :
  forwarded (trace (connectWebSocket r c st)) = forwarded (trace st).
Proof.
  destruct (connectWebSocket_core r c st) as (_ & _ & _ & _ & _ & _ & ->).
  unfold forwarded, teardown_effects. rewrite !omap_app.
  repeat case_match; simpl; by rewrite ?app_nil_r.
Qed.

Lemma forwarded_heartbeatTick v now thr st :
  forwarded (trace (heartbeatTick v now thr st)) = forwarded (trace st).
Proof.
  unfold_callbacks.
  destruct st as [msgs ic ra sref rref href lp on mt socks tms tr]; simpl.
  repeat (case_match; simplify_eq/=); rewrite ?forwarded_snoc, ?app_nil_r; done.
Qed.

Lemma forwarded_cleanup st : forwarded (trace (cleanup st)) = forwarded (trace st).
Proof.
  unfold_callbacks.
  destruct st as [msgs ic ra sref rref href lp on mt socks tms tr]; simpl.
  repeat (case_match; simplify_eq/=); rewrite ?forwarded_snoc, ?app_nil_r; done.
Qed.

Lemma forwarded_onclose r code wc st :
  forwarded (trace (onclose r code wc st)) = forwarded (trace st).
Proof.
  unfold_callbacks.
  destruct st as [msgs ic ra sref rref href lp on mt socks tms tr]; simpl.
  repeat (case_match; simplify_eq/=); rewrite ?forwarded_snoc, ?app_nil_r; done.
Qed.

Lemma forwarded_onopen r now st : forwarded (trace (onopen r now st)) = forwarded (trace st).
Proof. unfold onopen. simpl. by rewrite !forwarded_snoc, !app_nil_r. Qed.

(** Only a message event touches the history or calls the observer. *)
Lemma step_observed v ev st st' :
  step JSON_parse onMessage v ev st = Some st' ->
  (messages st' = messages st /\ forwarded (trace st') = forwarded (trace st)) \/
  exists id d now, ev = EvMessage id d now /\
                   st' = onmessage JSON_parse onMessage v d now st.
Proof.
  destruct ev; cbn [step]; intros Hstep; repeat (case_match; simplify_eq; try done);
    try (right; by eauto); left.
  - done.
  - unfold onlineEffect. case_match; [|done].
    by rewrite messages_connectWebSocket, forwarded_connectWebSocket.
  - by rewrite messages_onopen, forwarded_onopen.
  - by rewrite messages_onclose, forwarded_onclose.
  - by rewrite messages_onclose, forwarded_onclose.
  - by rewrite messages_onclose, forwarded_onclose.
  - by rewrite onerror_returns.
  - by rewrite messages_heartbeatTick, forwarded_heartbeatTick.
  - unfold reconnectCallback.
    by rewrite messages_connectWebSocket, forwarded_connectWebSocket.
  - by rewrite messages_cleanup, forwarded_cleanup.
Qed.

Lemma Forall_pushMessage (P : msgval -> Prop) m prev :
  P m -> Forall P prev -> Forall P (pushMessage m prev).
Proof. intros Hm Hprev. unfold pushMessage. apply Forall_take. by constructor. Qed.

(** What [Tolerant] has recorded and forwarded after a run. *)
Lemma run_tolerant_observed evs st st' :
  Forall (fun m => displayable m = true /\ heartbeat_reply m = false) (messages st) ->
  Forall (fun m => is_log m = true) (forwarded (trace st)) ->
  run JSON_parse onMessage Tolerant evs st = Some st' ->
  Forall (fun m => displayable m = true /\ heartbeat_reply m = false) (messages st') /\
  Forall (fun m => is_log m = true) (forwarded (trace st')).
Proof.
  revert st. induction evs as [|ev evs IH]; intros st Hm Hf Hrun; simpl in Hrun.
  - by simplify_eq.
  - destruct (step JSON_parse onMessage Tolerant ev st) as [st1|] eqn:Hstep; [|done].
    apply (IH st1); [| |done].
    + destruct (step_observed _ _ _ _ Hstep) as [[-> _]|(id & d & now & -> & ->)]; [done|].
      destruct (onmessage_tolerant_observed d now st) as [[-> _]|(m & Hd & Hh & -> & _)];
        [done|]. by apply Forall_pushMessage.
    + destruct (step_observed _ _ _ _ Hstep) as [[_ ->]|(id & d & now & -> & ->)]; [done|].
      destruct (onmessage_tolerant_observed d now st)
        as [[_ ->]|(m & _ & _ & _ & [->|[Hl ->]])]; [done|done|].
      apply Forall_app. split; [done|]. by constructor.
Qed.

(** Neither version has recorded or forwarded a heartbeat reply after a run. *)
Lemma run_no_heartbeat_reply v evs st st' :
  Forall (fun m => heartbeat_reply m = false) (messages st) ->
  Forall (fun m => heartbeat_reply m = false) (forwarded (trace st)) ->
  run JSON_parse onMessage v evs st = Some st' ->
  Forall (fun m => heartbeat_reply m = false) (messages st') /\
  Forall (fun m => heartbeat_reply m = false) (forwarded (trace st')).
Proof.
  revert st. induction evs as [|ev evs IH]; intros st Hm Hf Hrun; simpl in Hrun.
  - by simplify_eq.
  - destruct (step JSON_parse onMessage v ev st) as [st1|] eqn:Hstep; [|done].
    destruct (step_observed _ _ _ _ Hstep) as [[Em Ef]|(id & d & now & -> & ->)].
    { apply (IH st1); [by rewrite Em|by rewrite Ef|done]. }
    destruct v.
    + destruct (onmessage_tolerant_observed d now st)
        as [[Em Ef]|(m & _ & Hh & Em & Ef)]; cbv zeta in *.
      * eapply IH; [| |exact Hrun]; [by rewrite Em|by rewrite Ef].
      * eapply IH; [| |exact Hrun]; [rewrite Em; by apply Forall_pushMessage|].
        destruct Ef as [->|[_ ->]]; [done|]. apply Forall_app. split; [done|by constructor].
    + destruct (onmessage_strict_observed d now st)
        as [[Em Ef]|(m & Hh & Em & Ef)]; cbv zeta in *.
      * eapply IH; [| |exact Hrun]; [by rewrite Em|by rewrite Ef].
      * eapply IH; [| |exact Hrun]; [rewrite Em; by apply Forall_pushMessage|].
        rewrite Ef. apply Forall_app. split; [done|]. destruct onMessage; by constructor.
Qed.

End Observed.

Section Surface.

Context (JSON_parse : string -> option json) (onMessage : bool).

(** In every reachable state of [Tolerant] each history entry is a [log],
    or an [error] or an [order] whose toast text could be built (so an
    [order] that carries [data]); and each message the observer was called
    with is a [log]. *)
Theorem tolerant_history_is_displayable (mountedAt : Z) (evs : list event) (st : state) :
  run JSON_parse onMessage Tolerant evs (initial mountedAt) = Some st ->
  (forall m, In m (messages st) -> displayable m = true) /\
  (forall m, In m (forwarded (trace st)) -> is_log m = true).
Proof.
  intros Hrun.
  destruct (run_tolerant_observed JSON_parse onMessage evs (initial mountedAt) st)
    as [Hm Hf]; [by constructor|by constructor|done|].
  rewrite Forall_forall in Hm, Hf. split.
  - intros m Hin. apply list_elem_of_In in Hin. by destruct (Hm m Hin).
  - intros m Hin. apply list_elem_of_In in Hin. by apply Hf.
Qed.

(** In every reachable state of either version no message tagged [pong] or
    [connection] is in the history, and the observer was never called with
    one. *)
Theorem heartbeat_replies_never_surface (v : variant) (mountedAt : Z) (evs : list event)
    (st : state) :
  run JSON_parse onMessage v evs (initial mountedAt) = Some st ->
  (forall m, In m (messages st) -> heartbeat_reply m = false) /\
  (forall m, In m (forwarded (trace st)) -> heartbeat_reply m = false).
Proof.
  intros Hrun.
  destruct (run_no_heartbeat_reply JSON_parse onMessage v evs (initial mountedAt) st)
    as [Hm Hf]; [by constructor|by constructor|done|].
  rewrite Forall_forall in Hm, Hf. split.
  - intros m Hin. apply list_elem_of_In in Hin. by apply Hm.
  - intros m Hin. apply list_elem_of_In in Hin. by apply Hf.
Qed.

(** [Tolerant] leaves the state as it was for every received value that is
    neither a heartbeat reply nor displayable.  That covers [null], numbers,
    booleans, strings (raw text included), arrays, binary frames, and an
    [order] whose [data] is missing or [null]. *)
Theorem tolerant_drops_everything_else :
  (forall d now st,
     heartbeat_reply (received JSON_parse d) = false ->
     displayable (received JSON_parse d) = false ->
     onmessage JSON_parse onMessage Tolerant d now st = st) /\
  (forall j, (forall fields, j <> JObj fields) ->
     heartbeat_reply (MJson j) = false /\ displayable (MJson j) = false) /\
  (heartbeat_reply MBlob = false /\ displayable MBlob = false) /\
  (forall fields,
     assoc "type" fields = Some (JStr "order") ->
     assoc "data" fields = None \/ assoc "data" fields = Some JNull ->
     heartbeat_reply (MJson (JObj fields)) = false /\
     displayable (MJson (JObj fields)) = false).
Proof.
  split; [|split; [|split]].
  - intros d now st Hh Hd. rewrite onmessage_tolerant_decision. cbv zeta.
    by rewrite Hh, Hd.
  - intros j Hj. by split; destruct j as [| | | | |fields]; try done; destruct (Hj fields).
  - done.
  - intros fields Hty Hdata. split.
    + unfold heartbeat_reply. simpl. by rewrite Hty.
    + unfold displayable, order_text_throws, field. simpl. rewrite Hty. simpl.
      by destruct Hdata as [-> | ->].
Qed.

End Surface.

Section Window.

Context (JSON_parse : string -> option json).



End Window.

(** ** The connected indicator *)







Section Indicator.

Context (JSON_parse : string -> option json) (onMessage : bool).






End Indicator.

(** ** The delays of the timers *)

Lemma timer_ok_deactivate tm : timer_ok tm -> timer_ok (deactivate tm).
Proof. done. Qed.

Lemma timers_ok_clear_ref ref tms :
  (forall t tm, tms !! t = Some tm -> timer_ok tm) ->
  forall t tm, clear_ref ref tms !! t = Some tm -> timer_ok tm.
Proof.
  intros H t tm. destruct ref as [t0|]; simpl; [|apply H].
  destruct (decide (t0 = t)) as [->|Hne].
  - rewrite list_lookup_alter_eq. destruct (tms !! t) eqn:E; simpl; [|done].
    intros [= <-]. apply timer_ok_deactivate. eauto.
  - rewrite list_lookup_alter_ne by done. apply H.
Qed.

Lemma timers_ok_snoc tms tm :
  (forall t tm', tms !! t = Some tm' -> timer_ok tm') -> timer_ok tm ->
  forall t tm', (tms ++ [tm]) !! t = Some tm' -> timer_ok tm'.
Proof.
  intros H Htm t tm' Hl. apply lookup_app_Some in Hl as [Hl|[_ Hl]]; [eauto|].
  by apply list_lookup_singleton_Some in Hl as [_ <-].
Qed.

Lemma timer_ok_backoff r a : timer_ok (mkTimer Timeout (backoff r) r a).
Proof. unfold timer_ok. simpl. split; [apply backoff_floor|apply backoff_cap]. Qed.

Section Delays.

Context (JSON_parse : string -> option json) (onMessage : bool).

Lemma connectWebSocket_timers_ok r c st :
  (forall t tm, timers st !! t = Some tm -> timer_ok tm) ->
  forall t tm, timers (connectWebSocket r c st) !! t = Some tm -> timer_ok tm.
Proof.
  intros H. destruct (connectWebSocket_core r c st) as (_ & -> & _).
  destruct c.
  - apply timers_ok_snoc; [|apply timer_ok_backoff].
    by do 2 apply timers_ok_clear_ref.
  - rewrite app_nil_r. by do 2 apply timers_ok_clear_ref.
Qed.

Lemma step_timers_ok v ev st st' :
  (forall t tm, timers st !! t = Some tm -> timer_ok tm) ->
  step JSON_parse onMessage v ev st = Some st' ->
  forall t tm, timers st' !! t = Some tm -> timer_ok tm.
Proof.
  intros H Hstep. destruct ev; cbn [step] in Hstep.
  - destruct (mounted st); by simplify_eq.
  - destruct (mounted st); simplify_eq. unfold onlineEffect.
    case_match; [by apply connectWebSocket_timers_ok|done].
  - destruct (sockets st !! id) as [s|]; [|done].
    destruct (readyState s); simplify_eq. simpl.
    by apply timers_ok_snoc.
  - destruct (socket_state id st) as [[]|]; simplify_eq.
    destruct (onmessage_core JSON_parse onMessage v d now st) as (_ & _ & _ & -> & _). done.
  - destruct (sockets st !! id) as [s|]; [|done].
    assert (st' = onclose (seenAttempts s) code wasClean (set_readyState id CLOSED st)) as ->
      by (destruct (readyState s); congruence).
    destruct (onclose_core (seenAttempts s) code wasClean (set_readyState id CLOSED st))
      as (_ & _ & _ & -> & _). simpl.
    destruct (non_retry code).
    + rewrite app_nil_r. by apply timers_ok_clear_ref.
    + apply timers_ok_snoc; [by apply timers_ok_clear_ref|apply timer_ok_backoff].
  - destruct (sockets st !! id); simplify_eq. by rewrite onerror_returns.
  - destruct (timers st !! t); [|done]. destruct (timer_is Interval t0); simplify_eq.
    destruct (heartbeatTick_core v now send_throws st) as (_ & -> & _). done.
  - destruct (timers st !! t) as [tm0|]; [|done].
    destruct (timer_is Timeout tm0); simplify_eq.
    unfold reconnectCallback. apply connectWebSocket_timers_ok. simpl.
    by apply (timers_ok_clear_ref (Some t)).
  - destruct (mounted st); simplify_eq.
    destruct (cleanup_core (set_mounted false st)) as (_ & -> & _). simpl.
    by do 2 apply timers_ok_clear_ref.
Qed.

(** Every timer the component ever registers, in either version and
    whatever the retry count, is a reconnect timeout of at least one and at
    most thirty seconds or a heartbeat interval of ten seconds. *)
Theorem timer_delays_are_bounded (v : variant) (mountedAt : Z) (evs : list event)
    (st : state) :
  run JSON_parse onMessage v evs (initial mountedAt) = Some st ->
  forall t tm, timers st !! t = Some tm ->
    match kind tm with
    | Timeout => 1000 <= delay tm <= 30000
    | Interval => delay tm = 10000
    end.
Proof.
  intros Hrun. change (forall t tm, timers st !! t = Some tm -> timer_ok tm).
  assert (Hgen : forall st0, (forall t tm, timers st0 !! t = Some tm -> timer_ok tm) ->
                 run JSON_parse onMessage v evs st0 = Some st ->
                 forall t tm, timers st !! t = Some tm -> timer_ok tm).
  { clear Hrun. induction evs as [|ev evs IH]; intros st0 H0 Hrun; simpl in Hrun.
    - by simplify_eq.
    - destruct (step JSON_parse onMessage v ev st0) as [st1|] eqn:Hstep; [|done].
      apply (IH st1); [|done]. by eapply step_timers_ok. }
  apply (Hgen (initial mountedAt)); [|done]. intros t tm Hl. done.
Qed.

(** ** [Strict]'s heartbeat check *)

Lemma heartbeatTick_strict now thr st :
  heartbeatTick Strict now thr st = sendHeartbeat now thr st.
Proof.
  unfold heartbeatTick, checkConnection, ws_close.
  change (valid_close_code (PONG_TIMEOUT_CODE Strict)) with false. cbv zeta.
  destruct (30000 <? now - lastPongRef (sendHeartbeat now thr st)); [|done].
  by destruct (socketRef (sendHeartbeat now thr st)).
Qed.

(** In [Strict] the heartbeat check and the error handler both call
    [close(1006, ..)], a code the socket refuses.  So no run of heartbeat
    ticks and transport errors, however late after the last pong, changes a
    socket or starts a closing handshake: a silent connection stays as it
    is. *)
Theorem strict_heartbeat_closes_nothing (evs : list event) (st st' : state) :
  forallb tick_or_error evs = true ->
  run JSON_parse onMessage Strict evs st = Some st' ->
  sockets st' = sockets st /\ closes (trace st') = closes (trace st) /\
  lastPongRef st' = lastPongRef st.
Proof.
  revert st. induction evs as [|ev evs IH]; intros st Hall Hrun; simpl in *.
  - by simplify_eq.
  - apply andb_prop in Hall as [Hev Hall].
    destruct (step JSON_parse onMessage Strict ev st) as [st1|] eqn:Hstep; [|done].
    destruct (IH st1 Hall Hrun) as (-> & -> & ->).
    destruct ev; try discriminate; cbn [step] in Hstep.
    + destruct (sockets st !! id); simplify_eq. by rewrite onerror_returns.
    + destruct (timers st !! t); [|done]. destruct (timer_is Interval t0); simplify_eq.
      rewrite heartbeatTick_strict.
      destruct (sendHeartbeat_cases now send_throws st) as [->|(id & _ & _ & _ & ->)];
        [done|]. simpl. by rewrite closes_snoc, app_nil_r.
Qed.

End Delays.

(** ** The dashboards *)

Lemma pushData_length d prev :
  (length prev <= 100)%nat -> (length (Dashboard.pushData d prev) <= 100)%nat.
Proof.
  intros H. unfold Dashboard.pushData. cbv zeta.
  rewrite length_drop, length_app. simpl. lia.
Qed.

Lemma pushData_room d prev :
  (length prev < 100)%nat -> Dashboard.pushData d prev = prev ++ [d].
Proof.
  intros H. unfold Dashboard.pushData. cbv zeta. rewrite length_app. simpl.
  replace (length prev + 1 - 100)%nat with 0%nat by lia. done.
Qed.

Lemma pushData_full d prev :
  length prev = 100%nat ->
  exists oldest kept, prev = oldest :: kept /\ Dashboard.pushData d prev = kept ++ [d].
Proof.
  intros H. destruct prev as [|oldest kept]; [done|]. exists oldest, kept.
  split; [done|]. unfold Dashboard.pushData. cbv zeta. rewrite length_app. simpl in *.
  replace (length kept + 1 - 99)%nat with 1%nat by lia. simpl.
  replace (S (length kept + 1) - 100)%nat with 1%nat by lia. done.
Qed.

Lemma handle_marketData_length m v :
  (length (Dashboard.marketData v) <= 100)%nat ->
  (length (Dashboard.marketData (Dashboard.handleWebSocketMessage m v)) <= 100)%nat.
Proof.
  intros H. unfold Dashboard.handleWebSocketMessage.
  repeat case_match; simpl; try done. by apply pushData_length.
Qed.

(** [TradingDashboard.js]: the chart data never exceeds 100 points, whatever
    messages arrive.  A [market_data] message appends its [data] at the end
    (newest last); when 100 points are held the first (oldest) is dropped. *)
Theorem market_data_window (ms : list msgval) (v : Dashboard.view) :
  (length (Dashboard.marketData v) <= 100)%nat ->
  let v' := fold_left (fun acc m => Dashboard.handleWebSocketMessage m acc) ms v in
  (length (Dashboard.marketData v') <= 100)%nat /\
  forall m, get_prop m "type" = Some (Some (JStr "market_data")) ->
    let v'' := Dashboard.handleWebSocketMessage m v' in
    Dashboard.positions v'' = Dashboard.positions v' /\
    Dashboard.performance v'' = Dashboard.performance v' /\
    last (Dashboard.marketData v'') = Some (data_of m) /\
    ((length (Dashboard.marketData v') < 100)%nat ->
       Dashboard.marketData v'' = Dashboard.marketData v' ++ [data_of m]) /\
    (length (Dashboard.marketData v') = 100%nat ->
       exists oldest kept,
         Dashboard.marketData v' = oldest :: kept /\
         Dashboard.marketData v'' = kept ++ [data_of m]).
Proof.
  intros Hlen v'.
  assert (Hlen' : (length (Dashboard.marketData v') <= 100)%nat).
  { subst v'. revert v Hlen. induction ms as [|m ms IH]; intros v Hlen; [done|].
    simpl. apply IH. by apply handle_marketData_length. }
  split; [exact Hlen'|].
  intros m Hty v''. subst v''. unfold Dashboard.handleWebSocketMessage. rewrite Hty. simpl.
  repeat split.
  - destruct (decide (length (Dashboard.marketData v') < 100)%nat) as [Hlt|Hge].
    + rewrite pushData_room by done. apply last_snoc.
    + destruct (pushData_full (data_of m) (Dashboard.marketData v')) as (o & k & _ & ->);
        [lia|]. apply last_snoc.
  - apply pushData_room.
  - apply pushData_full.
Qed.

Lemma positions_handle m p :
  Positions.handleWebSocketMessage m p = if is_position_update m then data_of m else p.
Proof.
  unfold Positions.handleWebSocketMessage, is_position_update.
  destruct (get_prop m "type") as [ty|]; [|done].
  destruct ty as [[| | |s| |]|]; simpl; try done.
  destruct (String.eqb_spec s "market_data") as [->|_]; [done|]. done.
Qed.

Lemma positions_fold (ms : list msgval) (p : option json) :
  fold_left (fun acc m => Positions.handleWebSocketMessage m acc) ms p =
  match last (filter (fun m => is_position_update m = true) ms) with
  | Some m => data_of m
  | None => p
  end.
Proof.
  induction ms as [|m ms IH] using rev_ind; [done|].
  rewrite fold_left_app. simpl. rewrite positions_handle, filter_app, IH.
  rewrite filter_cons, filter_nil.
  destruct (is_position_update m) eqn:Hm.
  - rewrite decide_True by done. by rewrite last_snoc.
  - rewrite decide_False by congruence. by rewrite app_nil_r.
Qed.



Lemma log_is_no_update m :
  is_log m = true ->
  (forall v, Dashboard.handleWebSocketMessage m v = v) /\
  (forall p, Positions.handleWebSocketMessage m p = p).
Proof.
  unfold is_log, Dashboard.handleWebSocketMessage, Positions.handleWebSocketMessage.
  destruct (get_prop m "type") as [ty|]; [|done].
  destruct ty as [[| | |s| |]|]; simpl; try done.
  destruct (String.eqb_spec s "log") as [->|_]; done.
Qed.

Section EndToEnd.

Context (JSON_parse : string -> option json) (onMessage : bool).

(** Both dashboards behind [Tolerant]: whatever the host delivers, the
    observer calls made during the run leave the dashboard's state as it was.
    Only [log] messages are forwarded, and neither dashboard reacts to a
    [log]. *)
Theorem tolerant_never_updates_dashboard (mountedAt : Z) (evs : list event) (st : state)
    (v : Dashboard.view) (p : option json) :
  run JSON_parse onMessage Tolerant evs (initial mountedAt) = Some st ->
  fold_left (fun acc m => Dashboard.handleWebSocketMessage m acc) (forwarded (trace st)) v = v /\
  fold_left (fun acc m => Positions.handleWebSocketMessage m acc) (forwarded (trace st)) p = p.
Proof.
  intros Hrun.
  destruct (run_tolerant_observed JSON_parse onMessage evs (initial mountedAt) st)
    as [_ Hf]; [by constructor|by constructor|done|].
  induction Hf as [|m ms Hm _ IH]; [done|].
  simpl. destruct (log_is_no_update m Hm) as [Hv Hp]. by rewrite Hv, Hp.
Qed.

End EndToEnd.

(** ** The prober, for every outcome of the request *)

Section ProbeAll.

Import Prober.

(** [checkStatus] always resolves, publishes exactly what it resolves with,
    and ends with [isLoading] off.  The snapshot says online exactly when the
    response was a success whose body parsed; only then is [lastChecked]
    stamped.  A success whose body does not parse is reported offline like
    any other failure. *)
Theorem checkStatus_publishes_its_result (r : fetch_result) (now1 now2 : string) (h : hook) :
  exists b h',
    checkStatus r now1 now2 h = (Normal b, h') /\
    botStatus h' = Some b /\ isLoading h' = false /\
    (isOnline_of b = true <->
     exists status j, r = Response status (BodyJson j) /\ ok status = true) /\
    lastChecked h' = (if isOnline_of b then Some now2 else lastChecked h) /\
    (isOnline_of b = false -> status_of b = Some (JStr "offline")).
Proof.
  unfold checkStatus, checkStatus_try, checkStatus_catch.
  destruct r as [msg|status [j|msg]]; simpl.
  - eexists _, _. split; [reflexivity|]. simpl. repeat split; try done.
    by intros (? & ? & ? & _).
  - destruct (ok status) eqn:Hok; simpl.
    + eexists _, _. split; [reflexivity|]. simpl. repeat split; try done; eauto.
    + eexists _, _. split; [reflexivity|]. simpl. repeat split; try done.
      intros (s' & j' & [= -> ->] & Hok'). congruence.
  - destruct (ok status) eqn:Hok; simpl.
    + eexists _, _. split; [reflexivity|]. simpl. repeat split; try done.
      by intros (? & ? & ? & _).
    + eexists _, _. split; [reflexivity|]. simpl. repeat split; try done.
      by intros (? & ? & ? & _).
Qed.

End ProbeAll.

(** ** The stream endpoint *)

Lemma substring_all s : String.substring 0 (String.length s) s = s.
Proof. induction s as [|c s IH]; simpl; [done|]. by rewrite IH. Qed.

Lemma replace_first_eq pattern replacement s :
  replace_first pattern replacement s =
  if String.prefix pattern s
  then String.append replacement
         (String.substring (String.length pattern) (String.length s - String.length pattern) s)
  else match s with
       | EmptyString => EmptyString
       | String c rest => String c (replace_first pattern replacement rest)
       end.
Proof. by destruct s. Qed.

Lemma includes_eq needle haystack :
  Prober.includes needle haystack =
  String.prefix needle haystack ||
  match haystack with
  | EmptyString => false
  | String _ rest => Prober.includes needle rest
  end.
Proof. by destruct haystack. Qed.

Lemma replace_first_absent pattern replacement s :
  Prober.includes pattern s = false -> replace_first pattern replacement s = s.
Proof.
  induction s as [|c s IH]; intros H; rewrite includes_eq in H;
    apply orb_false_iff in H as [Hp Hi]; rewrite replace_first_eq, Hp; [done|].
  by rewrite IH.
Qed.

Lemma replace_first_http rest :
  replace_first "http" "ws" (String.append "http" rest) = String.append "ws" rest.
Proof.
  rewrite replace_first_eq. simpl.
  assert (String.prefix "" rest = true) as -> by (by destruct rest).
  by rewrite Nat.sub_0_r, substring_all.
Qed.

Lemma append_append (a b c : string) :
  String.append (String.append a b) c = String.append a (String.append b c).
Proof. induction a as [|x a IH]; simpl; [done|]. by rewrite IH. Qed.

Lemma index_cons pattern c s :
  String.index 0 pattern (String c s) =
  if String.prefix pattern (String c s) then Some 0%nat
  else match String.index 0 pattern s with
       | Some n => Some (S n)
       | None => None
       end.
Proof. reflexivity. Qed.

(** Where the first occurrence of [http] starts, [replace] puts [ws] and
    keeps what is before and after it. *)
Lemma replace_first_at before rest :
  String.index 0 "http" (String.append before (String.append "http" rest))
  = Some (String.length before) ->
  replace_first "http" "ws" (String.append before (String.append "http" rest))
  = String.append before (String.append "ws" rest).
Proof.
  induction before as [|c before IH]; intros Hidx.
  - apply replace_first_http.
  - change (String.append (String c before) (String.append "http" rest))
      with (String c (String.append before (String.append "http" rest))) in *.
    rewrite index_cons in Hidx. rewrite replace_first_eq.
    destruct (String.prefix "http" (String c _)); [done|].
    destruct (String.index 0 "http" _) as [n|] eqn:Hn; [|done].
    injection Hidx as ->. by rewrite IH.
Qed.

(** [Strict] derives the stream endpoint from the configured base by
    replacing the first [http] in it by [ws], wherever it stands, and
    keeping the rest: [http://h] gives [ws://h/ws/logs] and [https://h]
    gives [wss://h/ws/logs], for every [h], and a later [http] is left
    alone.  Without a configured base (unset or empty) the local default is
    used; a base that holds no [http] is kept as it is in front of
    [/ws/logs]. *)
Theorem wsUrl_swaps_the_scheme :
  (forall rest, wsUrl (Some (String.append "http" rest))
                = String.append "ws" (String.append rest "/ws/logs")) /\
  (forall host, wsUrl (Some (String.append "http://" host))
                = String.append "ws://" (String.append host "/ws/logs")) /\
  (forall host, wsUrl (Some (String.append "https://" host))
                = String.append "wss://" (String.append host "/ws/logs")) /\
  wsUrl None = "ws://localhost:8000/ws/logs"%string /\
  wsUrl (Some EmptyString) = "ws://localhost:8000/ws/logs"%string /\
  (forall url, url <> EmptyString -> Prober.includes "http" url = false ->
               wsUrl (Some url) = String.append url "/ws/logs") /\
  (forall before rest,
     String.index 0 "http" (String.append before (String.append "http" rest))
     = Some (String.length before) ->
     wsUrl (Some (String.append before (String.append "http" rest)))
     = String.append before (String.append "ws" (String.append rest "/ws/logs"))) /\
  (forall url, String.index 0 "http" url = None <-> Prober.includes "http" url = false).
Proof.
  assert (Hswap : forall rest, wsUrl (Some (String.append "http" rest))
                               = String.append "ws" (String.append rest "/ws/logs")).
  { intros rest. unfold wsUrl. simpl String.eqb. cbv iota.
    by rewrite replace_first_http. }
  split; [exact Hswap|]. split; [intros host; exact (Hswap (String.append "://" host))|].
  split; [intros host; exact (Hswap (String.append "s://" host))|].
  split; [reflexivity|]. split; [reflexivity|]. split; [|split].
  - intros url Hne Habs. unfold wsUrl.
    destruct (String.eqb_spec url ""); [done|]. by rewrite replace_first_absent.
  - intros before rest Hidx. unfold wsUrl.
    destruct (String.eqb_spec (String.append before (String.append "http" rest)) "")
      as [Hempty|_].
    { by destruct before. }
    rewrite replace_first_at by done. by rewrite !append_append.
  - intros url. induction url as [|c url IH].
    + done.
    + rewrite index_cons, includes_eq.
      destruct (String.prefix "http" (String c url)); simpl; [done|].
      destruct (String.index 0 "http" url); [|tauto].
      split; [done|]. intros H. apply IH in H. done.
Qed.

(** * Examples on concrete inputs *)

(** [Samples.open_state] is what mounting, one online probe and an open
    socket lead to. *)
Example open_state_reached (v : variant) :
  run Reader.parse true v Samples.to_open_state (initial 0) = Some Samples.open_state.
Proof. destruct v; reflexivity. Qed.

(** The spec's order scenario, run by [Tolerant] with an observer: the
    message enters the history, the observer is not called. *)
Example order_scenario_tolerant :
  (fun st => (messages st, forwarded (trace st))) <$>
    run Reader.parse true Tolerant
      (Samples.to_open_state ++ [EvMessage 0%nat (Text Samples.order_payload) 1500]) (initial 0)
  = Some ([MJson Samples.order_message], []).
Proof. vm_compute. reflexivity. Qed.

(** The same scenario run by [Strict]: recorded and forwarded once. *)
Example order_scenario_strict :
  (fun st => (messages st, forwarded (trace st))) <$>
    run Reader.parse true Strict
      (Samples.to_open_state ++ [EvMessage 0%nat (Text Samples.order_payload) 1500]) (initial 0)
  = Some ([MJson Samples.order_message], [MJson Samples.order_message]).
Proof. vm_compute. reflexivity. Qed.

(** [Tolerant]: 30.001 s after the last pong the tick closes socket 0 with
    4000; the close event with that code leaves no reconnect behind. *)
Example pong_timeout_run :
  (fun st => (closes (trace st), scheduled (trace st), reconnectTimeoutRef st,
              socket_state 0 st)) <$>
    run Reader.parse true Tolerant
      (Samples.to_open_state ++ [EvTick 0%nat 31001 false; EvClose 0%nat 4000 true]) (initial 0)
  = Some ([(0%nat, 4000)], [], None, Some CLOSED).
Proof. vm_compute. reflexivity. Qed.

(** [Strict]: [close(1006)] is refused by the socket, so the same tick closes
    nothing. *)
Example pong_timeout_run_strict :
  (fun st => (closes (trace st), socket_state 0 st)) <$>
    run Reader.parse true Strict
      (Samples.to_open_state ++ [EvTick 0%nat 31001 false]) (initial 0)
  = Some ([], Some OPEN).
Proof. vm_compute. reflexivity. Qed.

(** Three failures in a row without an open in between: the delays stay at
    one second while [reconnectAttempts] counts up. *)
Example backoff_run (v : variant) :
  (fun st => (scheduled (trace st), reconnectAttempts st)) <$>
    run Reader.parse true v
      [EvStatus true; EvEffect false; EvClose 0%nat 1006 false;
       EvTimeout 0%nat false; EvClose 1%nat 1006 false;
       EvTimeout 1%nat false; EvClose 2%nat 1006 false] (initial 0)
  = Some ([1000; 1000; 1000], 2%nat).
Proof. destruct v; vm_compute; reflexivity. Qed.

(** C5 as stated fails.  The text [hello] does not parse; with an observer
    registered and socket 0 open, neither version hands it to the observer:
    after the message event the list of forwarded messages is still empty. *)
Lemma unparseable_text_is_not_forwarded :
  Reader.parse "hello" = None /\
  forwarded (trace Samples.open_state) = [] /\
  (forwarded ∘ trace) <$>
    step Reader.parse true Tolerant (EvMessage 0%nat (Text "hello") 2000) Samples.open_state
  = Some [] /\
  (forwarded ∘ trace) <$>
    step Reader.parse true Strict (EvMessage 0%nat (Text "hello") 2000) Samples.open_state
  = Some [].
Proof. repeat split. Qed.

(** An order whose [side] cannot be printed: [Tolerant] builds the toast
    text first, so nothing is recorded; [Strict] records and forwards it. *)
Example odd_order_scenario :
  Reader.parse Samples.odd_order_payload = Some Samples.odd_order_message /\
  onmessage Reader.parse true Tolerant (Text Samples.odd_order_payload) 1500
    Samples.open_state = Samples.open_state /\
  messages (onmessage Reader.parse true Strict (Text Samples.odd_order_payload) 1500
              Samples.open_state) = [MJson Samples.odd_order_message].
Proof. split; [vm_compute; reflexivity|]. split; vm_compute; reflexivity. Qed.

(** The positions dashboard: an update with rows is shown, one without
    [data] takes the component down, and a later update does not bring it
    back. *)
Example positions_scenario (positive : json -> bool) :
  fold_left (fun acc m => Positions.deliver positive m acc)
    [Samples.position_update] (Positions.Live Positions.initial)
  = Positions.Live (Some Samples.one_position) /\
  fold_left (fun acc m => Positions.deliver positive m acc)
    [Samples.position_update; Samples.bare_update; Samples.position_update]
    (Positions.Live Positions.initial)
  = Positions.Unmounted.
Proof. split; reflexivity. Qed.

(** * Instances *)

Lemma pong_timeout_close_is_not_retried_witness :
  socketRef Samples.open_state = Some 0%nat /\
  sockets Samples.open_state !! 0%nat = Some (mkSocket OPEN 0 None) /\
  30000 < 31001 - lastPongRef Samples.open_state /\
  closes (trace (heartbeatTick Tolerant 31001 false Samples.open_state)) = [(0%nat, 4000)] /\
  exists st2,
    step Reader.parse true Tolerant (EvClose 0%nat 4000 true)
      (heartbeatTick Tolerant 31001 false Samples.open_state) = Some st2 /\
    nothing_scheduled Samples.open_state st2.
Proof.
  do 3 (split; [reflexivity|]).
  destruct (pong_timeout_close_is_not_retried Reader.parse true 0%nat
              (mkSocket OPEN 0 None) 31001 false true Samples.open_state)
    as (Hcl & _ & _ & _ & Hstep); [reflexivity..|].
  split; [exact Hcl|exact Hstep].
Defined.

Lemma non_retry_closes_schedule_nothing_witness :
  forallb quiet_event Samples.two_clean_closes = true /\
  exists st',
    run Reader.parse true Tolerant Samples.two_clean_closes (initial 0) = Some st' /\
    closes (trace st') = [(1%nat, 4000)] /\
    scheduled (trace st') = [].
Proof.
  assert (Hquiet : forallb quiet_event Samples.two_clean_closes = true)
    by (vm_compute; reflexivity).
  destruct (run Reader.parse true Tolerant Samples.two_clean_closes (initial 0))
    as [st'|] eqn:Hrun; [|vm_compute in Hrun; discriminate].
  split; [exact Hquiet|]. exists st'. split; [reflexivity|]. split.
  - vm_compute in Hrun. injection Hrun as <-. reflexivity.
  - exact (proj1 (non_retry_closes_schedule_nothing Reader.parse true Tolerant
                    Samples.two_clean_closes (initial 0) st' Hquiet Hrun)).
Defined.

Lemma retry_delay_repeats_witness :
  sockets Samples.open_state !! 0%nat = Some (mkSocket OPEN 0 None) /\
  non_retry 1006 = false /\
  exists st1 st2 st3,
    step Reader.parse true Tolerant (EvClose 0%nat 1006 false) Samples.open_state = Some st1 /\
    step Reader.parse true Tolerant (EvTimeout 1%nat false) st1 = Some st2 /\
    step Reader.parse true Tolerant (EvClose 1%nat 1006 false) st2 = Some st3 /\
    reconnectAttempts st2 = 1%nat /\
    scheduled (trace st3) = [1000; 1000].
Proof.
  do 2 (split; [reflexivity|]).
  destruct (retry_delay_repeats Reader.parse true Tolerant 0%nat (mkSocket OPEN 0 None)
              1006 false Samples.open_state)
    as (st1 & st2 & H1 & _ & H2 & Hra & _ & Hnext); [reflexivity|discriminate|reflexivity|].
  destruct (Hnext 1006 false eq_refl) as (st3 & H3 & Hsch).
  exists st1, st2, st3. repeat split; [exact H1|exact H2|exact H3|exact Hra|exact Hsch].
Defined.

Lemma tolerant_order_is_not_forwarded_witness :
  Reader.parse Samples.order_payload = Some Samples.order_message /\
  messages (onmessage Reader.parse true Tolerant (Text Samples.order_payload) 1500
              Samples.open_state) = [MJson Samples.order_message] /\
  forwarded (trace (onmessage Reader.parse true Tolerant (Text Samples.order_payload) 1500
                      Samples.open_state)) = [] /\
  forwarded (trace (onmessage Reader.parse true Strict (Text Samples.order_payload) 1500
                      Samples.open_state)) = [MJson Samples.order_message].
Proof.
  split; [vm_compute; reflexivity|].
  destruct (tolerant_order_is_not_forwarded Reader.parse Samples.order_payload
              [ ("type", JStr "order");
                ("data", JObj [("side", JStr "buy"); ("amount", JNum 1);
                               ("symbol", JStr "BTC")]) ]%string
              1500 Samples.open_state)
    as (Hm & _ & _ & _ & Hf & _ & Hs);
    [vm_compute; reflexivity|reflexivity|].
  split; [exact Hm|]. split; [exact Hf|exact Hs].
Defined.

Lemma unparseable_payload_leaves_state_witness :
  Reader.parse "hello" = None /\
  socket_state 0 Samples.open_state = Some OPEN /\
  step Reader.parse true Tolerant (EvMessage 0%nat (Text "hello") 2000) Samples.open_state
  = Some Samples.open_state.
Proof.
  do 2 (split; [reflexivity|]).
  exact (proj1 (unparseable_payload_leaves_state Reader.parse true Tolerant 0%nat "hello"
                  2000 Samples.open_state eq_refl eq_refl)).
Defined.

Lemma new_attempt_closes_previous_first_witness :
  run Reader.parse true Tolerant Samples.to_open_state (initial 0) = Some Samples.open_state /\
  trace (connectWebSocket 0 false Samples.open_state)
  = trace Samples.open_state ++ [EClearInterval 0; EClose 0 4000; ENewSocket 1] /\
  sockets (connectWebSocket 0 false Samples.open_state)
  = [mkSocket CLOSING 0 (Some 4000); mkSocket CONNECTING 0 None].
Proof.
  split; [reflexivity|].
  destruct (new_attempt_closes_previous_first Reader.parse true Tolerant 0
              Samples.to_open_state Samples.open_state 0%nat eq_refl)
    as (_ & Htr & _).
  split; [exact Htr|reflexivity].
Defined.

Lemma history_bounded_newest_first_witness :
  exists st st',
    run Reader.parse true Tolerant Samples.session (initial 0) = Some st /\
    messages st = [MJson Samples.order_message; MJson Samples.log_message] /\
    step Reader.parse true Tolerant (EvMessage 0%nat (Text Samples.log_payload) 1900) st
    = Some st' /\
    messages st'
    = [MJson Samples.log_message; MJson Samples.order_message; MJson Samples.log_message].
Proof.
  do 2 eexists. split; [vm_compute; reflexivity|].
  lazymatch goal with
  | |- messages ?st = _ /\ step _ _ _ ?ev _ = Some ?st' /\ _ =>
      assert (Hrun : run Reader.parse true Tolerant Samples.session (initial 0) = Some st)
        by (vm_compute; reflexivity);
      assert (Hstep : step Reader.parse true Tolerant ev st = Some st')
        by (vm_compute; reflexivity);
      destruct (history_bounded_newest_first Reader.parse true Tolerant 0 Samples.session
                  st Hrun) as (Hall & _ & Hpush);
      specialize (Hpush ev st' Hstep)
  end.
  split; [exact Hall|]. split; [exact Hstep|].
  vm_compute in Hpush. destruct Hpush as (_ & Hroom & _).
  apply Hroom. lia.
Defined.

Lemma pong_only_stamps_lastPong_witness :
  Reader.parse Samples.pong_payload = Some (JObj [("type", JStr "pong")]%string) /\
  onmessage Reader.parse true Tolerant (Text Samples.pong_payload) 5000 Samples.open_state
  = set_lastPongRef 5000 Samples.open_state.
Proof.
  split; [vm_compute; reflexivity|].
  refine (proj1 (pong_only_stamps_lastPong Reader.parse true Tolerant Samples.pong_payload
                   (JObj [("type", JStr "pong")]%string) 5000 Samples.open_state _ _)).
  - vm_compute. reflexivity.
  - left. reflexivity.
Defined.

Lemma probe_failure_is_recovered_witness :
  Prober.failure (Prober.Response 404 (Prober.BodyJson JNull)) = Some (Prober.http_error 404) /\
  fst (Prober.checkStatus (Prober.Response 404 (Prober.BodyJson JNull)) "t1" "t2"
         (Prober.mkHook None false None))
  = Prober.Normal (Prober.ErrorStatus Prober.NOT_FOUND "t1").
Proof.
  split; [reflexivity|].
  rewrite (proj1 (probe_failure_is_recovered (Prober.Response 404 (Prober.BodyJson JNull))
                    (Prober.http_error 404) "t1" "t2" (Prober.mkHook None false None)
                    eq_refl)).
  reflexivity.
Defined.
Lemma one_pending_timer_per_kind_witness :
  run Reader.parse true Tolerant Samples.to_open_state (initial 0) = Some Samples.open_state /\
  timers Samples.open_state !! 0%nat = Some (mkTimer Interval 10000 0 true) /\
  ref_of Interval Samples.open_state = Some 0%nat.
Proof.
  split; [reflexivity|]. split; [reflexivity|].
  exact (proj2 (one_pending_timer_per_kind Reader.parse true Tolerant 0
                  Samples.to_open_state Samples.open_state eq_refl
                  Interval 0%nat 0%nat (mkTimer Interval 10000 0 true)
                  (mkTimer Interval 10000 0 true) eq_refl eq_refl eq_refl eq_refl)).
Defined.

Lemma timers_follow_the_handle_witness :
  exists st,
    run Reader.parse true Tolerant Samples.lost_connection (initial 0) = Some st /\
    timers st !! 1%nat = Some (mkTimer Timeout 1000 0 true) /\
    all_closed (sockets st).
Proof.
  eexists. split; [vm_compute; reflexivity|]. split; [reflexivity|].
  lazymatch goal with
  | |- all_closed (sockets ?st) =>
      assert (Hrun : run Reader.parse true Tolerant Samples.lost_connection (initial 0)
                     = Some st) by (vm_compute; reflexivity);
      exact (proj1 (proj2 (timers_follow_the_handle Reader.parse true Tolerant 0
                             Samples.lost_connection st Hrun))
               1%nat (mkTimer Timeout 1000 0 true) eq_refl eq_refl)
  end.
Defined.

Lemma unmount_is_final_witness :
  exists st1 st2,
    step Reader.parse true Tolerant EvUnmount Samples.open_state = Some st1 /\
    run Reader.parse true Tolerant [EvClose 0%nat 1000 true] st1 = Some st2 /\
    socketRef st1 = None /\
    sockets st1 !! 0%nat = Some (mkSocket CLOSING 0 (Some 1000)) /\
    scheduled (trace st2) = scheduled (trace st1).
Proof.
  do 2 eexists. split; [vm_compute; reflexivity|]. split; [vm_compute; reflexivity|].
  destruct (unmount_is_final Reader.parse true Tolerant 0 Samples.to_open_state
              Samples.open_state _ eq_refl eq_refl)
    as ((Href & _ & _ & _ & _ & Hcl) & Hlater).
  split; [exact Href|]. split; [exact (Hcl 0%nat _ eq_refl eq_refl eq_refl)|].
  exact (proj1 (proj2 (Hlater [EvClose 0%nat 1000 true] _ eq_refl eq_refl))).
Defined.

Lemma retry_survives_unmount_witness :
  run Reader.parse true Tolerant Samples.unmount_while_connecting (initial 0)
  = Some Samples.abandoned_state /\
  exists st1 st2,
    step Reader.parse true Tolerant (EvClose 0%nat 1006 false) Samples.abandoned_state
    = Some st1 /\
    step Reader.parse true Tolerant (EvTimeout 0%nat false) st1 = Some st2 /\
    mounted st2 = false /\
    sockets st2 !! 1%nat = Some (mkSocket CONNECTING 0 None).
Proof.
  split; [vm_compute; reflexivity|].
  destruct (retry_survives_unmount Reader.parse true Tolerant 0%nat
              (mkSocket CLOSING 0 (Some 1000)) 1006 false Samples.abandoned_state)
    as (st1 & st2 & H1 & H2 & Hm & _ & Hs); [reflexivity|reflexivity|discriminate|reflexivity|].
  exists st1, st2. repeat split; [exact H1|exact H2|exact Hm|exact Hs].
Defined.

Lemma tolerant_history_is_displayable_witness :
  exists st,
    run Reader.parse true Tolerant Samples.session (initial 0) = Some st /\
    messages st = [MJson Samples.order_message; MJson Samples.log_message] /\
    forwarded (trace st) = [MJson Samples.log_message] /\
    displayable (MJson Samples.order_message) = true /\
    is_log (MJson Samples.log_message) = true.
Proof.
  eexists. split; [vm_compute; reflexivity|]. do 2 (split; [reflexivity|]).
  assert (Hrun : run Reader.parse true Tolerant Samples.session (initial 0) = Some _)
    by (vm_compute; reflexivity).
  destruct (tolerant_history_is_displayable Reader.parse true 0 Samples.session _ Hrun)
    as (Hm & Hf).
  split; [apply Hm; left; reflexivity|apply Hf; left; reflexivity].
Defined.

Lemma heartbeat_replies_never_surface_witness :
  exists st,
    run Reader.parse true Strict Samples.session (initial 0) = Some st /\
    messages st = [MJson Samples.market_message; MJson Samples.order_message;
                   MJson Samples.log_message] /\
    heartbeat_reply (MJson Samples.market_message) = false.
Proof.
  eexists. split; [vm_compute; reflexivity|]. split; [reflexivity|].
  assert (Hrun : run Reader.parse true Strict Samples.session (initial 0) = Some _)
    by (vm_compute; reflexivity).
  apply (proj1 (heartbeat_replies_never_surface Reader.parse true Strict 0
                  Samples.session _ Hrun)).
  left. reflexivity.
Defined.

Lemma tolerant_drops_everything_else_witness :
  Reader.parse Samples.market_payload = Some Samples.market_message /\
  onmessage Reader.parse true Tolerant (Text Samples.market_payload) 1800 Samples.open_state
  = Samples.open_state.
Proof.
  split; [vm_compute; reflexivity|].
  apply (proj1 (tolerant_drops_everything_else Reader.parse true));
    vm_compute; reflexivity.
Defined.


Lemma market_data_window_witness :
  Dashboard.marketData
    (Dashboard.handleWebSocketMessage (MJson Samples.market_message)
       (Dashboard.handleWebSocketMessage (MJson Samples.market_message) Dashboard.initial))
  = [Some (JObj [("price", JNum 100)]%string); Some (JObj [("price", JNum 100)]%string)].
Proof.
  destruct (market_data_window [MJson Samples.market_message] Dashboard.initial)
    as (_ & Hnext); [simpl; lia|].
  destruct (Hnext (MJson Samples.market_message) eq_refl) as (_ & _ & _ & Happ & _).
  exact (Happ ltac:(simpl; lia)).
Defined.

Lemma tolerant_never_updates_dashboard_witness :
  exists st,
    run Reader.parse true Tolerant Samples.session (initial 0) = Some st /\
    forwarded (trace st) = [MJson Samples.log_message] /\
    fold_left (fun acc m => Dashboard.handleWebSocketMessage m acc) (forwarded (trace st))
      Dashboard.initial = Dashboard.initial.
Proof.
  eexists. split; [vm_compute; reflexivity|]. split; [reflexivity|].
  apply (tolerant_never_updates_dashboard Reader.parse true 0 Samples.session _
           Dashboard.initial Positions.initial).
  vm_compute. reflexivity.
Defined.

Lemma wsUrl_swaps_the_scheme_witness :
  wsUrl (Some "localhost:8000"%string) = "localhost:8000/ws/logs"%string /\
  wsUrl (Some "https://bot.example"%string) = "wss://bot.example/ws/logs"%string /\
  wsUrl (Some "xhttp://h/http"%string) = "xws://h/http/ws/logs"%string.
Proof.
  destruct wsUrl_swaps_the_scheme as (_ & _ & Hs & _ & _ & Hno & Hat & _).
  split; [|split].
  - apply (Hno "localhost:8000"%string); [discriminate|reflexivity].
  - exact (Hs "bot.example"%string).
  - exact (Hat "x"%string "://h/http"%string eq_refl).
Defined.


Lemma timer_delays_are_bounded_witness :
  exists st,
    run Reader.parse true Tolerant Samples.lost_connection (initial 0) = Some st /\
    timers st !! 1%nat = Some (mkTimer Timeout 1000 0 true) /\
    1000 <= delay (mkTimer Timeout 1000 0 true) <= 30000.
Proof.
  eexists. split; [vm_compute; reflexivity|].
  lazymatch goal with
  | |- timers ?st !! _ = _ /\ _ =>
      assert (Hrun : run Reader.parse true Tolerant Samples.lost_connection (initial 0)
                     = Some st) by (vm_compute; reflexivity);
      split; [reflexivity|];
      exact (timer_delays_are_bounded Reader.parse true Tolerant 0 Samples.lost_connection
               st Hrun 1%nat (mkTimer Timeout 1000 0 true) eq_refl)
  end.
Defined.

Lemma strict_heartbeat_closes_nothing_witness :
  30000 < 60000 - lastPongRef Samples.open_state /\
  exists st,
    run Reader.parse true Strict Samples.silent_ticks Samples.open_state = Some st /\
    sockets st = [mkSocket OPEN 0 None] /\ closes (trace st) = [].
Proof.
  split; [reflexivity|].
  eexists. split; [vm_compute; reflexivity|].
  assert (Hrun : run Reader.parse true Strict Samples.silent_ticks Samples.open_state = Some _)
    by (vm_compute; reflexivity).
  destruct (strict_heartbeat_closes_nothing Reader.parse true Samples.silent_ticks
              Samples.open_state _ eq_refl Hrun) as (Hs & Hc & _).
  split; [exact Hs|exact Hc].
Defined.
